(** * AppPilot offline converter: text reconstruction, format dispatch,
      EPUB packaging and MOBI encoding

    A shallow embedding of [src/services/geminiService.ts] and
    [src/utils/fileHelpers.ts].

    - JavaScript strings are sequences of UTF-16 code units ([list N]).
    - JavaScript numbers are IEEE 754 binary64 values: the kernel's
      primitive [float], so [NaN], the infinities and the signed zeros behave
      as they do in the engine.
    - An exception is the [Throw] constructor of [completion]. *)

From Stdlib Require Import ZArith NArith String Ascii Bool Lia List.
From Stdlib Require Import Floats.
From Stdlib Require Import Permutation.
Import ListNotations.

(* ===================================================================== *)
(** * The JavaScript values the program handles *)
(* ===================================================================== *)

Module JS.

(** A string is its sequence of UTF-16 code units. *)
Definition jsstring := list N.

(** An ASCII literal as a JavaScript string. *)
Definition lit (s : string) : jsstring :=
  map N_of_ascii (list_ascii_of_string s).

(** A literal of the source that holds double quotes: a backquote in the
    argument stands for a double quote (the source's literals hold no
    backquote of their own). *)
Definition tpl (s : string) : jsstring :=
  map (fun c => if N.eqb c 96 then 34%N else c) (lit s).

(** [a === b] on strings. *)
Fixpoint strictEq (a b : jsstring) : bool :=
  match a, b with
  | [], [] => true
  | c :: a', d :: b' => N.eqb c d && strictEq a' b'
  | _, _ => false
  end.

(** The code units that [String.prototype.trim] strips: WhiteSpace and
    LineTerminator of the ECMAScript grammar. *)
Definition isWhiteSpace (c : N) : bool :=
  existsb (N.eqb c)
    [0x09; 0x0A; 0x0B; 0x0C; 0x0D; 0x20; 0xA0; 0x1680;
     0x2000; 0x2001; 0x2002; 0x2003; 0x2004; 0x2005; 0x2006; 0x2007;
     0x2008; 0x2009; 0x200A; 0x2028; 0x2029; 0x202F; 0x205F; 0x3000;
     0xFEFF]%N.

Fixpoint trimStart (s : jsstring) : jsstring :=
  match s with
  | c :: s' => if isWhiteSpace c then trimStart s' else s
  | [] => []
  end.

Definition trimEnd (s : jsstring) : jsstring := rev (trimStart (rev s)).

(** [s.trim()] *)
Definition trim (s : jsstring) : jsstring := trimEnd (trimStart s).

(** [s.startsWith(p)] *)
Fixpoint startsWith (s p : jsstring) {struct p} : bool :=
  match p, s with
  | [], _ => true
  | _ :: _, [] => false
  | a :: p', b :: s' => N.eqb a b && startsWith s' p'
  end.

(** [s.endsWith(p)] *)
Definition endsWith (s p : jsstring) : bool := startsWith (rev s) (rev p).

(** [s.toLowerCase()].  Only the ASCII letters are mapped.  The program uses
    the lowered name for nothing but [endsWith] tests against ASCII
    extensions, and no code unit outside [A-Z] lowers to a letter of those
    extensions, so the tests come out as in the engine. *)
Definition lowerUnit (c : N) : N :=
  if (65 <=? c)%N && (c <=? 90)%N then (c + 32)%N else c.

Definition toLowerCase (s : jsstring) : jsstring := map lowerUnit s.

(** [s.substring(0, n)] for a non-negative [n]. *)
Definition substring0 (s : jsstring) (n : nat) : jsstring := firstn n s.

(** Is [p] a substring of [s] ([s.includes(p)])? *)
Fixpoint includes (s p : jsstring) : bool :=
  startsWith s p ||
  match s with
  | [] => false
  | _ :: s' => includes s' p
  end.

(** ToBoolean of a number: [+0], [-0] and [NaN] are falsy. *)
Definition ToBoolean (v : float) : bool :=
  negb (PrimFloat.is_nan v || PrimFloat.is_zero v).

(** The values a property typed [any] is read as here: absent, [null] or a
    number. *)
Inductive jsval : Type :=
| JSundefined
| JSnull
| JSnumber (v : float).

(** The result of running code that may throw [new Error(message)]. *)
Inductive completion (A : Type) : Type :=
| Normal (a : A)
| Throw (message : jsstring).
Arguments Normal {A} a.
Arguments Throw {A} message.

Definition bind {A B : Type} (c : completion A) (k : A -> completion B)
  : completion B :=
  match c with
  | Normal a => k a
  | Throw m => Throw m
  end.

(** [try { body } catch (error) { throw new Error(prefix + error.message) }] *)
Definition rethrow {A : Type} (prefix : jsstring) (body : completion A)
  : completion A :=
  match body with
  | Normal a => Normal a
  | Throw m => Throw (prefix ++ m)
  end.

(** A [Blob]: its content and its [type]. *)
Record Blob (A : Type) : Type := {
  blobParts : A;
  blobType : jsstring
}.
Arguments Build_Blob {A} _ _.
Arguments blobParts {A} _.
Arguments blobType {A} _.

Module Notations.
Notation "x <- c ;; k" := (bind c (fun x => k))
  (at level 61, c at next level, right associativity).
End Notations.

End JS.

Import JS.

(* ===================================================================== *)
(** * The text reconstruction engine (the PDF branch of convertLocalFile) *)
(* ===================================================================== *)

Module Reconstruct.

(** A text item as PDF.js reports it ([textContent.items]). *)
Record TextItem : Type := {
  item_str : jsstring;
  item_transform : list float;
  item_height : jsval
}.

(** The object the [map] callback builds from a text item. *)
Record Fragment : Type := {
  str : jsstring;
  y : float;
  x : float;
  height : float
}.

(** [a[i]] on an array of numbers used in arithmetic: an absent element is
    [undefined], which every use below converts to [NaN]. *)
Definition index (a : list float) (i : nat) : float := nth i a PrimFloat.nan.

(** [item.height || 10] *)
Definition heightOrDefault (h : jsval) : float :=
  match h with
  | JSnumber v => if ToBoolean v then v else 10%float
  | JSundefined | JSnull => 10%float
  end.

Definition toFragment (item : TextItem) : Fragment :=
  {| str := item_str item;
     y := index (item_transform item) 5;
     x := index (item_transform item) 4;
     height := heightOrDefault (item_height item) |}.

(** The comparator [(a, b) => b.y - a.y || a.x - b.x]. *)
Definition compareFn (a b : Fragment) : float :=
  let d := (y b - y a)%float in
  if ToBoolean d then d else (x a - x b)%float.

(** [Array.prototype.sort] is stable and orders [a] after [b] exactly when the
    comparator's result is greater than zero ([NaN] counts as zero).  On a
    comparator that is consistent over the array every stable sort gives the
    same array; insertion sort is taken here.  Where the comparator is not
    consistent (a coordinate that is [NaN], say) the order is the engine's
    own: the statements that depend on the order assume [consistent]. *)
Fixpoint insert (cmp : Fragment -> Fragment -> float) (e : Fragment)
  (sorted : list Fragment) : list Fragment :=
  match sorted with
  | [] => [e]
  | f :: rest =>
      if (0 <? cmp f e)%float then e :: f :: rest
      else f :: insert cmp e rest
  end.

Definition sort (cmp : Fragment -> Fragment -> float) (items : list Fragment)
  : list Fragment :=
  fold_left (fun acc e => insert cmp e acc) items [].

(** The three variables of the loop over the sorted items. *)
Record State : Type := {
  pageHtml : jsstring;
  lastY : float;
  currentParagraph : jsstring
}.

Definition initial : State :=
  {| pageHtml := []; lastY := (-1)%float; currentParagraph := [] |}.

(** [`<p>${s}</p>`] *)
Definition paragraph (s : jsstring) : jsstring := lit "<p>" ++ s ++ lit "</p>".

(** [if (currentParagraph.trim().length > 0) pageHtml += `<p>...</p>`] *)
Definition flush (html cur : jsstring) : jsstring :=
  match trim cur with
  | [] => html
  | _ :: _ => html ++ paragraph (trim cur)
  end.

(** The gap test [diffY > item.height * 1.5] with
    [diffY = Math.abs(item.y - lastY)]. *)
Definition diffY (item : Fragment) (last : float) : float :=
  PrimFloat.abs (y item - last)%float.

Definition isNewParagraph (item : Fragment) (last : float) : bool :=
  (height item * 1.5 <? diffY item last)%float.

(** The branch for a fragment that continues the open paragraph. *)
Definition appendSameLine (cur s : jsstring) : jsstring :=
  (if negb (endsWith cur (lit " ")) && negb (startsWith s (lit " "))
   then cur ++ lit " " else cur) ++ s.

(** One iteration of [for (const item of items)]. *)
Definition step (st : State) (item : Fragment) : State :=
  if (lastY st =? -1)%float then
    {| pageHtml := pageHtml st;
       lastY := y item;
       currentParagraph := currentParagraph st ++ str item |}
  else if isNewParagraph item (lastY st) then
    {| pageHtml := flush (pageHtml st) (currentParagraph st);
       lastY := y item;
       currentParagraph := str item |}
  else
    {| pageHtml := pageHtml st;
       lastY := y item;
       currentParagraph := appendSameLine (currentParagraph st) (str item) |}.

Definition walk (st : State) (items : list Fragment) : State :=
  fold_left step items st.

(** The page's paragraphs: the loop, then the flush of the last paragraph. *)
Definition finish (st : State) : jsstring :=
  flush (pageHtml st) (currentParagraph st).

Definition reconstructSorted (items : list Fragment) : jsstring :=
  finish (walk initial items).

Definition reconstructPage (items : list TextItem) : jsstring :=
  reconstructSorted (sort compareFn (map toFragment items)).

(** What a page adds to [fullHtml]. *)
Definition pageOutput (items : list TextItem) : jsstring :=
  match reconstructPage items with
  | [] => []
  | html =>
      tpl "<div class=`page-content`>" ++ html
      ++ tpl "</div><hr class=`page-break`/>"
  end.

End Reconstruct.

Import Reconstruct.

(* ===================================================================== *)
(** * The format normalizer (convertLocalFile) *)
(* ===================================================================== *)

Module Normalizer.

(** The libraries the page loads into [window], each absent or present.  A
    present library is given by what its asynchronous call settles to: the
    HTML of [mammoth.convertToHtml] (its messages are only logged), and the
    text items of the pages of the PDF, in page order. *)
Record Window : Type := {
  mammoth : option (completion jsstring);
  pdfjsLib : option (completion (list (list TextItem)))
}.

Definition isHtml (fileType fileName : jsstring) : bool :=
  strictEq fileType (lit "text/html")
  || endsWith fileName (lit ".html") || endsWith fileName (lit ".htm").

Definition isDocx (fileType fileName : jsstring) : bool :=
  strictEq fileType
    (lit "application/vnd.openxmlformats-officedocument.wordprocessingml.document")
  || endsWith fileName (lit ".docx").

Definition isPdf (fileType fileName : jsstring) : bool :=
  strictEq fileType (lit "application/pdf") || endsWith fileName (lit ".pdf").

(** The body of the [try] block. *)
Definition tryBlock (window : Window) (fileType fileName : jsstring)
  (textData : option jsstring) : completion jsstring :=
  if isHtml fileType fileName then
    Normal (match textData with Some t => t | None => [] end)
  else if isDocx fileType fileName then
    match mammoth window with
    | None => Throw (lit "Mammoth library not loaded")
    | Some result => result
    end
  else if isPdf fileType fileName then
    match pdfjsLib window with
    | None => Throw (lit "PDF.js library not loaded")
    | Some (Throw m) => Throw m
    | Some (Normal pages) =>
        Normal (fold_left (fun fullHtml items => fullHtml ++ pageOutput items)
                  pages [])
    end
  else Throw (lit "Unsupported file type for offline conversion.").

(** [convertLocalFile({ file, arrayBuffer, textData })], with [file.type] and
    [file.name] for [file]; the array buffer is only handed to the
    libraries. *)
Definition convertLocalFile (window : Window) (fileType name : jsstring)
  (textData : option jsstring) : completion jsstring :=
  let fileName := toLowerCase name in
  rethrow (lit "Failed to convert locally: ")
    (tryBlock window fileType fileName textData).

End Normalizer.

(* ===================================================================== *)
(** * The EPUB packager (createEpubBlob) *)
(* ===================================================================== *)

Module Epub.

(** The JSZip object, as far as the packager uses it: the archive's entries
    in the order they were added. *)
Inductive Compression : Type := STORE | DEFLATE.

Record ZipObject : Type := {
  name : jsstring;
  data : jsstring;
  dir : bool;
  compression : option Compression
}.

Definition JSZip : Type := list ZipObject.

(** Adding an entry: a new name goes last, a name already present keeps its
    place. *)
Fixpoint put (zip : JSZip) (e : ZipObject) : JSZip :=
  match zip with
  | [] => [e]
  | f :: zip' =>
      if strictEq (name f) (name e) then e :: zip' else f :: put zip' e
  end.

(** [zip.file(name, data, { compression })] on the view rooted at [root]. *)
Definition file (root : jsstring) (zip : JSZip) (n d : jsstring)
  (c : option Compression) : JSZip :=
  put zip {| name := root ++ n; data := d; dir := false; compression := c |}.

(** [zip.folder(name)]: the folder's entry is added unless it is there, and
    the result is the view rooted at the folder. *)
Definition folder (root : jsstring) (zip : JSZip) (n : jsstring)
  : JSZip * jsstring :=
  let path := root ++ n ++ lit "/" in
  (if existsb (fun f => strictEq (name f) path) zip then zip
   else zip ++ [{| name := path; data := []; dir := true;
                   compression := None |}],
   path).

Definition containerXml : jsstring :=
  tpl "<?xml version=`1.0`?>
<container version=`1.0` xmlns=`urn:oasis:names:tc:opendocument:xmlns:container`>
   <rootfiles>
      <rootfile full-path=`OEBPS/content.opf` media-type=`application/oebps-package+xml`/>
   </rootfiles>
</container>".

Definition css : jsstring :=
  tpl "
    body { font-family: serif; line-height: 1.5; margin: 5%; }
    p { margin-bottom: 1em; text-indent: 0; }
    h1, h2, h3 { font-family: sans-serif; margin-top: 1.5em; page-break-after: avoid; }
    img { max-width: 100%; height: auto; }
  ".

Definition xhtmlContent (title htmlContent : jsstring) : jsstring :=
  tpl "<?xml version=`1.0` encoding=`utf-8`?>
<!DOCTYPE html PUBLIC `-//W3C//DTD XHTML 1.1//EN` `http://www.w3.org/TR/xhtml11/DTD/xhtml11.dtd`>
<html xmlns=`http://www.w3.org/1999/xhtml`>
<head>
  <title>" ++ title ++ tpl "</title>
  <link rel=`stylesheet` type=`text/css` href=`style.css`/>
</head>
<body>
  <h1>" ++ title ++ tpl "</h1>
  " ++ htmlContent ++ tpl "
</body>
</html>".

Definition contentOpf (title uuid : jsstring) : jsstring :=
  tpl "<?xml version=`1.0` encoding=`UTF-8`?>
<package xmlns=`http://www.idpf.org/2007/opf` unique-identifier=`BookID` version=`2.0`>
   <metadata xmlns:dc=`http://purl.org/dc/elements/1.1/` xmlns:opf=`http://www.idpf.org/2007/opf`>
      <dc:title>" ++ title ++ tpl "</dc:title>
      <dc:language>en</dc:language>
      <dc:identifier id=`BookID` opf:scheme=`UUID`>" ++ uuid ++ tpl "</dc:identifier>
      <dc:creator>Offline Converter</dc:creator>
   </metadata>
   <manifest>
      <item id=`ncx` href=`toc.ncx` media-type=`application/x-dtbncx+xml`/>
      <item id=`style` href=`style.css` media-type=`text/css`/>
      <item id=`content` href=`content.xhtml` media-type=`application/xhtml+xml`/>
   </manifest>
   <spine toc=`ncx`>
      <itemref idref=`content`/>
   </spine>
</package>".

Definition tocNcx (title uuid : jsstring) : jsstring :=
  tpl "<?xml version=`1.0` encoding=`UTF-8`?>
<ncx xmlns=`http://www.daisy.org/z3986/2005/ncx/` version=`2005-1`>
   <head>
      <meta name=`dtb:uid` content=`" ++ uuid ++ tpl "`/>
      <meta name=`dtb:depth` content=`1`/>
      <meta name=`dtb:totalPageCount` content=`0`/>
      <meta name=`dtb:maxPageNumber` content=`0`/>
   </head>
   <docTitle>
      <text>" ++ title ++ tpl "</text>
   </docTitle>
   <navMap>
      <navPoint id=`navPoint-1` playOrder=`1`>
         <navLabel>
            <text>Start</text>
         </navLabel>
         <content src=`content.xhtml`/>
      </navPoint>
   </navMap>
</ncx>".

Definition defaultTitle : jsstring := lit "Converted E-Book".

(** [createEpubBlob(htmlContent, title)].  [jszipLoaded] says whether the
    global [JSZip] is defined and [randomUUID] is what [crypto.randomUUID()]
    returns in this call.  The Blob holds the archive that [generateAsync]
    serializes. *)
Definition createEpubBlob (jszipLoaded : bool) (randomUUID : jsstring)
  (htmlContent : jsstring) (titleArg : option jsstring)
  : completion (Blob JSZip) :=
  let title := match titleArg with Some t => t | None => defaultTitle end in
  if negb jszipLoaded then
    Throw (lit "JSZip library not loaded. Check internet connection.")
  else
    let zip : JSZip := [] in
    let uuid := lit "urn:uuid:" ++ randomUUID in
    let zip := file [] zip (lit "mimetype") (lit "application/epub+zip")
                 (Some STORE) in
    let '(zip, metaInf) := folder [] zip (lit "META-INF") in
    let zip := file metaInf zip (lit "container.xml") containerXml None in
    let '(zip, oebps) := folder [] zip (lit "OEBPS") in
    let zip := file oebps zip (lit "style.css") css None in
    let zip := file oebps zip (lit "content.xhtml")
                 (xhtmlContent title htmlContent) None in
    let zip := file oebps zip (lit "content.opf") (contentOpf title uuid)
                 None in
    let zip := file oebps zip (lit "toc.ncx") (tocNcx title uuid) None in
    Normal {| blobParts := zip; blobType := lit "application/epub+zip" |}.

End Epub.
(* ===================================================================== *)
(** * The MOBI binary encoder (createMobiBlob) *)
(* ===================================================================== *)

Module Mobi.

Import JS.Notations.

(** ** [new TextEncoder().encode(str)] *)

Definition isHighSurrogate (c : N) : bool := (0xD800 <=? c)%N && (c <=? 0xDBFF)%N.
Definition isLowSurrogate (c : N) : bool := (0xDC00 <=? c)%N && (c <=? 0xDFFF)%N.

(** The code points of a string; a surrogate without its partner becomes
    U+FFFD. *)
Fixpoint codePoints (s : jsstring) : list N :=
  match s with
  | [] => []
  | c :: rest =>
      if isHighSurrogate c then
        match rest with
        | d :: rest' =>
            if isLowSurrogate d
            then (0x10000 + (c - 0xD800) * 0x400 + (d - 0xDC00))%N
                   :: codePoints rest'
            else 0xFFFD%N :: codePoints rest
        | [] => [0xFFFD%N]
        end
      else if isLowSurrogate c then 0xFFFD%N :: codePoints rest
      else c :: codePoints rest
  end.

(** The UTF-8 bytes of a code point. *)
Definition utf8 (cp : N) : list N :=
  if (cp <? 0x80)%N then [cp]
  else if (cp <? 0x800)%N then
    [N.lor 0xC0 (N.shiftr cp 6); N.lor 0x80 (N.land cp 0x3F)]
  else if (cp <? 0x10000)%N then
    [N.lor 0xE0 (N.shiftr cp 12);
     N.lor 0x80 (N.land (N.shiftr cp 6) 0x3F);
     N.lor 0x80 (N.land cp 0x3F)]
  else
    [N.lor 0xF0 (N.shiftr cp 18);
     N.lor 0x80 (N.land (N.shiftr cp 12) 0x3F);
     N.lor 0x80 (N.land (N.shiftr cp 6) 0x3F);
     N.lor 0x80 (N.land cp 0x3F)].

Definition stringToUint8Array (str : jsstring) : list N :=
  flat_map utf8 (codePoints str).

(** ** [ArrayBuffer] and [DataView] *)

(** The bytes of a buffer. *)
Definition DataView : Type := list N.

(** [new ArrayBuffer(n)]: [n] zero bytes. *)
Definition ArrayBuffer (n : nat) : DataView := repeat 0%N n.

(** Byte [k] (0 the least significant) of the two's-complement form of
    [v]. *)
Definition byteOf (v : Z) (k : nat) : N :=
  Z.to_N (Z.land (Z.shiftr v (8 * Z.of_nat k)) 255).

(** Storing [bytes] from [offset] on; a range that leaves the buffer throws
    a RangeError. *)
Definition store (view : DataView) (offset : nat) (bytes : list N)
  : completion DataView :=
  if offset + length bytes <=? length view then
    Normal (firstn offset view ++ bytes ++ skipn (offset + length bytes) view)
  else Throw (lit "Offset is outside the bounds of the DataView").

Definition setUint8 (view : DataView) (offset : nat) (v : Z) :=
  store view offset [byteOf v 0].

(** [view.setUint16(offset, v, false)]: big-endian. *)
Definition setUint16 (view : DataView) (offset : nat) (v : Z) :=
  store view offset [byteOf v 1; byteOf v 0].

(** [view.setUint32(offset, v, false)]: big-endian. *)
Definition setUint32 (view : DataView) (offset : nat) (v : Z) :=
  store view offset [byteOf v 3; byteOf v 2; byteOf v 1; byteOf v 0].

(** [view.getUint32(offset, false)] *)
Definition getUint32 (view : DataView) (offset : nat) : option Z :=
  match firstn 4 (skipn offset view) with
  | [b3; b2; b1; b0] =>
      Some (Z.of_N b3 * 16777216 + Z.of_N b2 * 65536 + Z.of_N b1 * 256
            + Z.of_N b0)%Z
  | _ => None
  end.

(** The loop of [writeString], from index [i], with [n] bytes to go. *)
Fixpoint writeLoop (view : DataView) (offset : nat) (bytes : list N)
  (i n : nat) : completion DataView :=
  match n with
  | O => Normal view
  | S n' =>
      view <- setUint8 view (offset + i)
                (if i <? length bytes then Z.of_N (nth i bytes 0%N) else 0%Z) ;;
      writeLoop view offset bytes (S i) n'
  end.

Definition writeString (view : DataView) (offset : nat) (str : jsstring)
  (len : nat) : completion DataView :=
  writeLoop view offset (stringToUint8Array str) 0 len.

(** ** createMobiBlob *)

Definition NAME_LEN : nat := 32.
Definition PDB_HEADER_LEN : nat := 78.
Definition RECORD_INFO_LEN : nat := 8.
Definition PALMDOC_HEADER_LEN : nat := 16.
Definition MOBI_HEADER_LEN : nat := 232.
Definition EXTH_HEADER_LEN : nat := 0.
Definition RECORD_0_LEN : nat :=
  PALMDOC_HEADER_LEN + MOBI_HEADER_LEN + EXTH_HEADER_LEN.
Definition numRecords : nat := 2.

Definition defaultTitle : jsstring := lit "Converted E-Book".

Definition fullContent (title htmlContent : jsstring) : jsstring :=
  lit "<html><head><title>" ++ title ++ lit "</title></head><body><h1>"
  ++ title ++ lit "</h1>" ++ htmlContent ++ lit "</body></html>".

(** [Math.floor(Date.now() / 1000) + 2082844800], for the whole number of
    milliseconds [dateNow]. *)
Definition palmTime (dateNow : Z) : Z := (dateNow / 1000 + 2082844800)%Z.

(** 1. PDB Header *)
Definition writePdbHeader (title : jsstring) (now : Z) (view : DataView)
  : completion DataView :=
  view <- writeString view 0 (substring0 title 31) NAME_LEN ;;
  view <- setUint16 view 32 0 ;;
  view <- setUint16 view 34 0 ;;
  view <- setUint32 view 36 now ;;
  view <- setUint32 view 40 now ;;
  view <- setUint32 view 44 0 ;;
  view <- setUint32 view 48 0 ;;
  view <- setUint32 view 52 0 ;;
  view <- setUint32 view 56 0 ;;
  view <- writeString view 60 (lit "BOOK") 4 ;;
  view <- writeString view 64 (lit "MOBI") 4 ;;
  view <- setUint32 view 68 1 ;;
  view <- setUint32 view 72 0 ;;
  setUint16 view 76 (Z.of_nat numRecords).

(** 2. Record List (Offsets) *)
Definition writeRecordList (view : DataView) : completion DataView :=
  let currentOffset := PDB_HEADER_LEN + numRecords * RECORD_INFO_LEN in
  view <- setUint32 view 78 (Z.of_nat currentOffset) ;;
  view <- setUint32 view 82 0 ;;
  let currentOffset := currentOffset + RECORD_0_LEN in
  view <- setUint32 view 86 (Z.of_nat currentOffset) ;;
  setUint32 view 90 2.

Definition rec0Start : nat := PDB_HEADER_LEN + numRecords * RECORD_INFO_LEN.

(** 3. Record 0: Headers *)
Definition writeRecord0 (contentLen : nat) (view : DataView)
  : completion DataView :=
  view <- setUint16 view rec0Start 1 ;;
  view <- setUint16 view (rec0Start + 2) 0 ;;
  view <- setUint32 view (rec0Start + 4) (Z.of_nat contentLen) ;;
  view <- setUint16 view (rec0Start + 8) 1 ;;
  view <- setUint16 view (rec0Start + 10) 4096 ;;
  view <- setUint32 view (rec0Start + 12) 0 ;;
  let mobiStart := rec0Start + PALMDOC_HEADER_LEN in
  view <- writeString view mobiStart (lit "MOBI") 4 ;;
  view <- setUint32 view (mobiStart + 4) (Z.of_nat MOBI_HEADER_LEN) ;;
  view <- setUint32 view (mobiStart + 8) 2 ;;
  view <- setUint32 view (mobiStart + 12) 65001 ;;
  view <- setUint32 view (mobiStart + 16) 123456789 ;;
  view <- setUint32 view (mobiStart + 20) 6 ;;
  view <- setUint32 view (mobiStart + 80) 0 ;;
  view <- setUint32 view (mobiStart + 84) 0 ;;
  view <- setUint32 view (mobiStart + 88) 0 ;;
  setUint16 view (mobiStart + 128) 0.

Definition contentStart : nat := rec0Start + RECORD_0_LEN.

(** 4. Record 1: Content.  [new Uint8Array(buffer, contentStart, contentLen)]
    throws a RangeError when the window leaves the buffer; [set] copies the
    bytes into it. *)
Definition writeRecord1 (contentBytes : list N) (view : DataView)
  : completion DataView :=
  store view contentStart contentBytes.

(** [createMobiBlob(htmlContent, title)]; [dateNow] is what [Date.now()]
    returns in this call. *)
Definition createMobiBlob (dateNow : Z) (htmlContent : jsstring)
  (titleArg : option jsstring) : completion (Blob DataView) :=
  let title := match titleArg with Some t => t | None => defaultTitle end in
  let contentBytes := stringToUint8Array (fullContent title htmlContent) in
  let contentLen := length contentBytes in
  let totalLen :=
    PDB_HEADER_LEN + numRecords * RECORD_INFO_LEN + RECORD_0_LEN + contentLen in
  let buffer := ArrayBuffer totalLen in
  let now := palmTime dateNow in
  view <- writePdbHeader title now buffer ;;
  view <- writeRecordList view ;;
  view <- writeRecord0 contentLen view ;;
  view <- writeRecord1 contentBytes view ;;
  Normal {| blobParts := view; blobType := lit "application/x-mobipocket-ebook" |}.

End Mobi.

(* ===================================================================== *)
(** * Reading a file (fileToBase64, readTextFile, readFileAsArrayBuffer) *)
(* ===================================================================== *)

Module FileReaders.

(** What a promise is rejected with: an [Error] and its message, or the
    event that [reader.onerror] receives, which has no [message]. *)
Inductive Reason : Type :=
| ErrorObject (message : jsstring)
| ProgressEvent.

(** What a promise settles to. *)
Inductive settled (A : Type) : Type :=
| Resolved (a : A)
| Rejected (reason : Reason).
Arguments Resolved {A} a.
Arguments Rejected {A} reason.

(** [reader.result] when [onload] fires. *)
Inductive ReaderResult : Type :=
| ResultString (s : jsstring)
| ResultArrayBuffer (bytes : list N)
| ResultNull.

(** How a read ends: [onload] with the result, or [onerror]. *)
Inductive ReaderOutcome : Type :=
| Loaded (result : ReaderResult)
| Failed.

(** [s.split(',')] *)
Fixpoint splitComma (s : jsstring) : list jsstring :=
  match s with
  | [] => [[]]
  | c :: rest =>
      if N.eqb c 44 then [] :: splitComma rest
      else match splitComma rest with
           | field :: fields => (c :: field) :: fields
           | [] => [[c]]
           end
  end.

(** [fileToBase64]: the promise resolves with [result.split(',')[1]], which is
    [undefined] ([None]) when the result holds no comma. *)
Definition fileToBase64 (outcome : ReaderOutcome) : settled (option jsstring) :=
  match outcome with
  | Loaded (ResultString s) => Resolved (nth_error (splitComma s) 1)
  | Loaded _ => Rejected (ErrorObject (lit "Failed to convert file to base64"))
  | Failed => Rejected ProgressEvent
  end.

Definition readTextFile (outcome : ReaderOutcome) : settled jsstring :=
  match outcome with
  | Loaded (ResultString s) => Resolved s
  | Loaded _ => Rejected (ErrorObject (lit "Failed to read text file"))
  | Failed => Rejected ProgressEvent
  end.

Definition readFileAsArrayBuffer (outcome : ReaderOutcome)
  : settled (list N) :=
  match outcome with
  | Loaded (ResultArrayBuffer bytes) => Resolved bytes
  | Loaded _ => Rejected (ErrorObject (lit "Failed to read file as ArrayBuffer"))
  | Failed => Rejected ProgressEvent
  end.

End FileReaders.

(* ===================================================================== *)
(** * Regular expressions of the interface *)
(* ===================================================================== *)

Module RegExp.

(** Canonicalize of a case-insensitive pattern without the [u] flag, on the
    code units that can match an ASCII pattern character: a code unit from
    128 on never canonicalizes to an ASCII one. *)
Definition canonicalize (c : N) : N :=
  if (97 <=? c)%N && (c <=? 122)%N then (c - 32)%N else c.

(** [s] ends with [p], letters compared after canonicalization. *)
Definition endsWithIgnoreCase (s p : jsstring) : bool :=
  startsWith (map canonicalize (rev s)) (map canonicalize (rev p)).

(** [name.match(/\.(a1|a2|...)$/i)] is truthy: a dot and one of the
    alternatives end the name. *)
Definition matchesExtension (alternatives : list jsstring) (name : jsstring)
  : bool :=
  existsb (fun alt => endsWithIgnoreCase name (lit "." ++ alt)) alternatives.

(** The class [[^/.]]. *)
Definition notSlashOrDot (c : N) : bool := negb (N.eqb c 47 || N.eqb c 46).

(** [name.replace] of [/\.[^/.]+$/] by the empty string: the leftmost dot
    that is followed, up to the end of the name, by one or more code units
    other than [/] and [.] is removed with what follows it. *)
Fixpoint stripExtension (name : jsstring) : jsstring :=
  match name with
  | [] => []
  | c :: rest =>
      if N.eqb c 46 && negb (Nat.eqb (length rest) 0)
         && forallb notSlashOrDot rest
      then []
      else c :: stripExtension rest
  end.

End RegExp.

(* ===================================================================== *)
(** * The drop zone (validateAndSelect) *)
(* ===================================================================== *)

Module Dropzone.

Definition allowedTypes : list jsstring :=
  [lit "application/pdf";
   lit "application/msword";
   lit "application/vnd.openxmlformats-officedocument.wordprocessingml.document";
   lit "text/html"].

Inductive Selection : Type :=
| onFileSelect
| alert (message : jsstring).

(** [validateAndSelect(file)], for [file.type] and [file.name]. *)
Definition validateAndSelect (fileType name : jsstring) : Selection :=
  if existsb (strictEq fileType) allowedTypes
     || RegExp.matchesExtension
          [lit "pdf"; lit "doc"; lit "docx"; lit "html"; lit "htm"] name
  then onFileSelect
  else alert (lit "Unsupported file type. Please upload PDF, Word, or HTML files.").

End Dropzone.

(* ===================================================================== *)
(** * The application (handleConvert) *)
(* ===================================================================== *)

Module App.

Import FileReaders.

Inductive ConversionStatus : Type :=
| IDLE | UPLOADING | PROCESSING | COMPLETED | ERROR.

Inductive OutputFormat : Type := epub | azw3.

(** The Blob behind [blobUrl]. *)
Inductive BookBlob : Type :=
| EpubBlob (blob : Blob Epub.JSZip)
| MobiBlob (blob : Blob Mobi.DataView).

Record ConvertedFile : Type := {
  fileName : jsstring;
  originalName : jsstring;
  content : jsstring;
  blobUrl : BookBlob
}.

(** The selected [File]: its [type] and [name]. *)
Record File : Type := {
  fileType : jsstring;
  name : jsstring
}.

(** What the browser answers during one conversion: how reading the file as
    text and as an array buffer ends, the libraries loaded, the UUID and the
    clock. *)
Record Browser : Type := {
  textRead : ReaderOutcome;
  bufferRead : ReaderOutcome;
  window : Normalizer.Window;
  jszipLoaded : bool;
  randomUUID : jsstring;
  dateNow : Z
}.

(** The state that [handleConvert] reads and sets. *)
Record AppState : Type := {
  status : ConversionStatus;
  selectedFile : option File;
  result : option ConvertedFile;
  errorMessage : option jsstring;
  outputFormat : OutputFormat
}.

(** Awaiting a promise inside the [try] block. *)
Definition await {A B : Type} (p : settled A) (k : A -> settled B)
  : settled B :=
  match p with
  | Resolved a => k a
  | Rejected reason => Rejected reason
  end.

(** A promise of an async function that may throw an [Error]. *)
Definition promise {A : Type} (c : completion A) : settled A :=
  match c with
  | Normal a => Resolved a
  | Throw message => Rejected (ErrorObject message)
  end.

(** The body of the [try] block of [handleConvert]. *)
Definition tryBlock (browser : Browser) (file : File) (format : OutputFormat)
  : settled ConvertedFile :=
  let isHtml :=
    strictEq (fileType file) (lit "text/html")
    || RegExp.matchesExtension [lit "html"; lit "htm"] (name file) in
  await
    (if isHtml then
       await (readTextFile (textRead browser)) (fun textData =>
       promise (Normalizer.convertLocalFile (window browser) (fileType file)
                  (name file) (Some textData)))
     else
       await (readFileAsArrayBuffer (bufferRead browser)) (fun arrayBuffer =>
       promise (Normalizer.convertLocalFile (window browser) (fileType file)
                  (name file) None)))
    (fun htmlContent =>
  let bookTitle := RegExp.stripExtension (name file) in
  await
    (match format with
     | azw3 =>
         await (promise (Mobi.createMobiBlob (dateNow browser) htmlContent
                           (Some bookTitle)))
           (fun blob => Resolved (MobiBlob blob, lit ".azw3"))
     | epub =>
         await (promise (Epub.createEpubBlob (jszipLoaded browser)
                           (randomUUID browser) htmlContent (Some bookTitle)))
           (fun blob => Resolved (EpubBlob blob, lit ".epub"))
     end)
    (fun '(blob, extension) =>
  Resolved {| fileName := bookTitle ++ extension;
              originalName := name file;
              content := htmlContent;
              blobUrl := blob |})).

(** [error.message || "An unexpected error occurred during conversion."] *)
Definition messageOf (reason : Reason) : jsstring :=
  match reason with
  | ErrorObject ((_ :: _) as message) => message
  | _ => lit "An unexpected error occurred during conversion."
  end.

(** [handleConvert]: the state once the conversion has settled. *)
Definition handleConvert (browser : Browser) (st : AppState) : AppState :=
  match selectedFile st with
  | None => st
  | Some file =>
      match tryBlock browser file (outputFormat st) with
      | Resolved converted =>
          {| status := COMPLETED; selectedFile := selectedFile st;
             result := Some converted; errorMessage := None;
             outputFormat := outputFormat st |}
      | Rejected reason =>
          {| status := ERROR; selectedFile := selectedFile st;
             result := result st; errorMessage := Some (messageOf reason);
             outputFormat := outputFormat st |}
      end
  end.

End App.

(* ===================================================================== *)
(** * Notions used in the statements *)
(* ===================================================================== *)

(** A PDF.js text item at [(fx, fy)] with text [s] and height [fh]. *)
Definition textItem (s : string) (fy fx fh : float) : TextItem :=
  {| item_str := lit s;
     item_transform := [1; 0; 0; 1; fx; fy]%float;
     item_height := JSnumber fh |}.

(** The two outcomes of an iteration past the first item. *)
Definition startsParagraph (st : State) (item : Fragment) : State :=
  {| pageHtml := flush (pageHtml st) (currentParagraph st);
     lastY := y item;
     currentParagraph := str item |}.

Definition continuesParagraph (st : State) (item : Fragment) : State :=
  {| pageHtml := pageHtml st;
     lastY := y item;
     currentParagraph := appendSameLine (currentParagraph st) (str item) |}.

Definition endsWithSpace (s : jsstring) : Prop := exists t, s = t ++ lit " ".
Definition startsWithSpace (s : jsstring) : Prop := exists t, s = lit " " ++ t.

(** The lowered file name ends with the extension. *)
Definition hasExtension (name ext : jsstring) : Prop :=
  exists t, toLowerCase name = t ++ ext.

(** The input matches none of the three formats, by media type or by
    extension. *)
Definition matchesNoFormat (fileType name : jsstring) : Prop :=
  fileType <> lit "text/html" /\
  fileType <>
    lit "application/vnd.openxmlformats-officedocument.wordprocessingml.document" /\
  fileType <> lit "application/pdf" /\
  ~ hasExtension name (lit ".html") /\ ~ hasExtension name (lit ".htm") /\
  ~ hasExtension name (lit ".docx") /\ ~ hasExtension name (lit ".pdf").

(** The text after the last dot of a file name (the whole name when it has no
    dot). *)
Fixpoint extension (name : jsstring) : jsstring :=
  match name with
  | [] => []
  | c :: rest =>
      if existsb (N.eqb 46) rest then extension rest
      else if N.eqb c 46 then rest else c :: rest
  end.

(** An error message names the rejected input when the media type or the
    extension occurs in it. *)
Definition namesRejected (message fileType name : jsstring) : Prop :=
  includes message fileType = true \/ includes message (extension name) = true.

(** Reading an archive back. *)
Definition entry (zip : Epub.JSZip) (path : jsstring) : option Epub.ZipObject :=
  find (fun f => strictEq (Epub.name f) path) zip.

(** The text of [doc] that follows the first occurrence of [marker]. *)
Fixpoint after (marker doc : jsstring) : option jsstring :=
  if startsWith doc marker then Some (skipn (length marker) doc)
  else match doc with
       | [] => None
       | _ :: doc' => after marker doc'
       end.

(** The text of [doc] that precedes the first occurrence of [marker]. *)
Fixpoint before (marker doc : jsstring) : option jsstring :=
  if startsWith doc marker then Some []
  else match doc with
       | [] => None
       | c :: doc' => option_map (cons c) (before marker doc')
       end.

Definition between (opening closing doc : jsstring) : option jsstring :=
  match after opening doc with
  | Some tail => before closing tail
  | None => None
  end.

(** The package identifier of an OPF document: the content of its
    [dc:identifier] element. *)
Definition opfIdentifier (opf : jsstring) : option jsstring :=
  between (tpl "<dc:identifier id=`BookID` opf:scheme=`UUID`>")
    (lit "</dc:identifier>") opf.

(** The [dtb:uid] of an NCX document: the [content] attribute of that
    [meta] element. *)
Definition ncxUid (ncx : jsstring) : option jsstring :=
  between (tpl "<meta name=`dtb:uid` content=`") (tpl "`/>") ncx.

(** The code units of [crypto.randomUUID()]: lower-case hexadecimal digits
    and hyphens. *)
Definition isUuidUnit (c : N) : bool :=
  ((48 <=? c) && (c <=? 57) || (97 <=? c) && (c <=? 102) || (c =? 45))%N.

(** [s] and [p] differ at an index that lies within both. *)
Fixpoint clash (s p : jsstring) {struct p} : bool :=
  match p, s with
  | a :: p', b :: s' => negb (N.eqb a b) || clash s' p'
  | _, _ => false
  end.

(** No suffix of [pre] can be the start of an occurrence of [marker]. *)
Fixpoint clear (pre marker : jsstring) : bool :=
  match pre with
  | [] => true
  | _ :: pre' => clash pre marker && clear pre' marker
  end.

(** The URN form of a UUID. *)
Definition urn (randomUUID : jsstring) : jsstring :=
  lit "urn:uuid:" ++ randomUUID.

(** A writer that stays within a prefix of the buffer leaves what follows the
    prefix as it is. *)
Definition framed (f : Mobi.DataView -> completion Mobi.DataView) : Prop :=
  forall pre suf pre',
    f pre = Normal pre' -> f (pre ++ suf) = Normal (pre' ++ suf).

(** Sections 1 to 3 of the encoder: everything before the text record. *)
Definition writeHeaders (title : jsstring) (now : Z) (contentLen : nat)
  (view : Mobi.DataView) : completion Mobi.DataView :=
  bind (Mobi.writePdbHeader title now view) (fun view =>
  bind (Mobi.writeRecordList view) (fun view =>
  Mobi.writeRecord0 contentLen view)).

(** A text made of white space only. *)
Definition blank (s : jsstring) : Prop := forallb isWhiteSpace s = true.

(** The code units of a text that are not white space, in order. *)
Definition inked (s : jsstring) : jsstring :=
  filter (fun c => negb (isWhiteSpace c)) s.

(** A paragraph as the engine emits it: not empty, no white space at either
    end. *)
Definition trimmed (p : jsstring) : Prop := p <> [] /\ trim p = p.

(** The paragraphs after a flush of the buffer [cur]. *)
Definition flushed (ps : list jsstring) (cur : jsstring) : list jsstring :=
  match trim cur with
  | [] => ps
  | _ :: _ => ps ++ [trim cur]
  end.

(** What the loop keeps true after the fragments [done]. *)
Definition paragraphsSoFar (done : list Fragment) (st : State)
  (ps : list jsstring) : Prop :=
  pageHtml st = concat (map paragraph ps) /\
  Forall trimmed ps /\
  inked (concat ps ++ currentParagraph st) = inked (concat (map str done)) /\
  (done = [] -> ps = [] /\ currentParagraph st = []) /\
  (done <> [] -> length ps < length done).

(** The three formats, by media type or by extension of the lowered name. *)
Definition looksHtml (fileType name : jsstring) : Prop :=
  fileType = lit "text/html" \/
  hasExtension name (lit ".html") \/ hasExtension name (lit ".htm").

Definition looksDocx (fileType name : jsstring) : Prop :=
  fileType =
    lit "application/vnd.openxmlformats-officedocument.wordprocessingml.document"
  \/ hasExtension name (lit ".docx").

Definition looksPdf (fileType name : jsstring) : Prop :=
  fileType = lit "application/pdf" \/ hasExtension name (lit ".pdf").

Definition failed (message : string) : completion jsstring :=
  Throw (lit "Failed to convert locally: " ++ lit message).

(** The message of the converter for an input of no known format. *)
Definition unsupportedMessage : jsstring :=
  lit "Failed to convert locally: Unsupported file type for offline conversion.".

(** The extension of the download for a format. *)
Definition downloadExtension (format : App.OutputFormat) : jsstring :=
  match format with
  | App.epub => lit ".epub"
  | App.azw3 => lit ".azw3"
  end.

(** A browser and a state to try the application on. *)
Definition sampleBrowser : App.Browser :=
  {| App.textRead :=
       FileReaders.Loaded (FileReaders.ResultString (lit "<p>hi</p>"));
     App.bufferRead :=
       FileReaders.Loaded (FileReaders.ResultArrayBuffer [37; 80; 68; 70]%N);
     App.window := {| Normalizer.mammoth := None; Normalizer.pdfjsLib := None |};
     App.jszipLoaded := false;
     App.randomUUID := lit "123e4567-e89b-42d3-a456-426614174000";
     App.dateNow := 1700000000000 |}.

Definition sampleState (type name : string) (format : App.OutputFormat)
  : App.AppState :=
  {| App.status := App.IDLE;
     App.selectedFile :=
       Some {| App.fileType := lit type; App.name := lit name |};
     App.result := None; App.errorMessage := None;
     App.outputFormat := format |}.

(** [view.getUint16(offset, false)] *)
Definition getUint16 (view : Mobi.DataView) (offset : nat) : option Z :=
  match firstn 2 (skipn offset view) with
  | [b1; b0] => Some (Z.of_N b1 * 256 + Z.of_N b0)%Z
  | _ => None
  end.

(** The bytes [writeString] puts in a field of [len] bytes. *)
Definition padded (bytes : list N) (len : nat) : list N :=
  map (fun b => (b mod 256)%N) (firstn len bytes)
  ++ repeat 0%N (len - length bytes).

(** The unsigned number that four, or two, big-endian bytes stand for. *)
Definition u32 (b3 b2 b1 b0 : N) : Z :=
  (Z.of_N b3 * 16777216 + Z.of_N b2 * 65536 + Z.of_N b1 * 256 + Z.of_N b0)%Z.

(** The header writers with the bytes that depend on the input given as
    such: the bytes of the name, of the time stamp and of the text length. *)
Definition pdbHeaderRest (stamp : list N) (view : Mobi.DataView)
  : completion Mobi.DataView :=
  bind (Mobi.setUint16 view 32 0) (fun view =>
  bind (Mobi.setUint16 view 34 0) (fun view =>
  bind (Mobi.store view 36 stamp) (fun view =>
  bind (Mobi.store view 40 stamp) (fun view =>
  bind (Mobi.setUint32 view 44 0) (fun view =>
  bind (Mobi.setUint32 view 48 0) (fun view =>
  bind (Mobi.setUint32 view 52 0) (fun view =>
  bind (Mobi.setUint32 view 56 0) (fun view =>
  bind (Mobi.writeString view 60 (lit "BOOK") 4) (fun view =>
  bind (Mobi.writeString view 64 (lit "MOBI") 4) (fun view =>
  bind (Mobi.setUint32 view 68 1) (fun view =>
  bind (Mobi.setUint32 view 72 0) (fun view =>
  Mobi.setUint16 view 76 (Z.of_nat Mobi.numRecords))))))))))))).

Definition pdbHeaderWith (nameBytes stamp : list N) (view : Mobi.DataView)
  : completion Mobi.DataView :=
  bind (Mobi.writeLoop view 0 nameBytes 0 Mobi.NAME_LEN) (pdbHeaderRest stamp).

Definition record0With (len : list N) (view : Mobi.DataView)
  : completion Mobi.DataView :=
  bind (Mobi.setUint16 view Mobi.rec0Start 1) (fun view =>
  bind (Mobi.setUint16 view (Mobi.rec0Start + 2) 0) (fun view =>
  bind (Mobi.store view (Mobi.rec0Start + 4) len) (fun view =>
  bind (Mobi.setUint16 view (Mobi.rec0Start + 8) 1) (fun view =>
  bind (Mobi.setUint16 view (Mobi.rec0Start + 10) 4096) (fun view =>
  bind (Mobi.setUint32 view (Mobi.rec0Start + 12) 0) (fun view =>
  let mobiStart := Mobi.rec0Start + Mobi.PALMDOC_HEADER_LEN in
  bind (Mobi.writeString view mobiStart (lit "MOBI") 4) (fun view =>
  bind (Mobi.setUint32 view (mobiStart + 4) (Z.of_nat Mobi.MOBI_HEADER_LEN))
    (fun view =>
  bind (Mobi.setUint32 view (mobiStart + 8) 2) (fun view =>
  bind (Mobi.setUint32 view (mobiStart + 12) 65001) (fun view =>
  bind (Mobi.setUint32 view (mobiStart + 16) 123456789) (fun view =>
  bind (Mobi.setUint32 view (mobiStart + 20) 6) (fun view =>
  bind (Mobi.setUint32 view (mobiStart + 80) 0) (fun view =>
  bind (Mobi.setUint32 view (mobiStart + 84) 0) (fun view =>
  bind (Mobi.setUint32 view (mobiStart + 88) 0) (fun view =>
  Mobi.setUint16 view (mobiStart + 128) 0))))))))))))))).

Definition headersWith (nameBytes stamp len : list N) (view : Mobi.DataView)
  : completion Mobi.DataView :=
  bind (pdbHeaderWith nameBytes stamp view) (fun view =>
  bind (Mobi.writeRecordList view) (fun view =>
  record0With len view)).

(** The four big-endian bytes of a number. *)
Definition be32 (v : Z) : list N :=
  [Mobi.byteOf v 3; Mobi.byteOf v 2; Mobi.byteOf v 1; Mobi.byteOf v 0].

(** The loop of [writeString] stores its bytes in one piece. *)
Definition loopBytes (bytes : list N) (i n : nat) : list N :=
  map (fun j => Mobi.byteOf (if j <? length bytes
                        then Z.of_N (nth j bytes 0%N) else 0%Z) 0)
    (seq i n).

(** The value of the attribute [attr] that starts [doc]: what follows the
    name, the equals sign and the opening quote, up to the closing quote. *)
Definition attributeAt (attr doc : jsstring) : option jsstring :=
  if startsWith doc (attr ++ tpl "=`")
  then before (tpl "`") (skipn (length attr + 2) doc)
  else None.

(** The values of all the attributes named [attr] in [doc], in order. *)
Fixpoint attributeValues (attr doc : jsstring) : list jsstring :=
  match doc with
  | [] => []
  | _ :: rest =>
      match attributeAt attr doc with
      | Some v => v :: attributeValues attr rest
      | None => attributeValues attr rest
      end
  end.

(** The file of the archive at a path. *)
Definition fileAt (zip : Epub.JSZip) (path : string) : jsstring :=
  match entry zip (lit path) with
  | Some e => Epub.data e
  | None => []
  end.

(** The comparator's answer on a pair, as [Array.prototype.sort] reads it:
    [a] sorts before [b] when [cmp(a, b) < 0], the two tie when
    [cmp(a, b)] is zero (of either sign), [a] sorts after [b] when
    [cmp(a, b) > 0]. *)
Definition sortsBefore (cmp : Fragment -> Fragment -> float)
  (a b : Fragment) : Prop := (cmp a b <? 0)%float = true.

Definition tie (cmp : Fragment -> Fragment -> float) (a b : Fragment) : bool :=
  (cmp a b =? 0)%float.

Definition ties (cmp : Fragment -> Fragment -> float)
  (a b : Fragment) : Prop := tie cmp a b = true.

Definition sortsAfter (cmp : Fragment -> Fragment -> float)
  (a b : Fragment) : Prop := (0 <? cmp a b)%float = true.

(** A comparator is consistent over the values of an array when, for all
    [a], [b], [c] among them, its result is a number other than [NaN], every
    value ties with itself, ties are symmetric and transitive, and so are
    transitive sorting before and sorting after.  These are the conditions of
    ECMAScript under which [Array.prototype.sort] has one result; outside
    them the order is left to the engine. *)
Definition consistent (cmp : Fragment -> Fragment -> float)
  (values : list Fragment) : Prop :=
  forall a b c, In a values -> In b values -> In c values ->
    is_nan (cmp a b) = false /\
    ties cmp a a /\
    (ties cmp a b -> ties cmp b a) /\
    (ties cmp a b -> ties cmp b c -> ties cmp a c) /\
    (sortsBefore cmp a b -> sortsBefore cmp b c -> sortsBefore cmp a c) /\
    (sortsAfter cmp a b -> sortsAfter cmp b c -> sortsAfter cmp a c).

(** No value of the list sorts after a later one, and no value sorts before
    an earlier one. *)
Definition inOrder (cmp : Fragment -> Fragment -> float)
  (l : list Fragment) : Prop :=
  ForallOrdPairs (fun a b => ~ sortsAfter cmp a b /\ ~ sortsBefore cmp b a) l.

(** The values that tie with a given one appear in [l] in the order they
    have in [items]. *)
Definition keepsTies (cmp : Fragment -> Fragment -> float)
  (items l : list Fragment) : Prop :=
  forall v, In v items -> filter (tie cmp v) l = filter (tie cmp v) items.

(** A page on whose fragments the comparator of the engine is consistent. *)
Definition orderly (page : list TextItem) : Prop :=
  consistent compareFn (map toFragment page).

(* ===================================================================== *)
(** * Facts about binary64 comparisons *)
(* ===================================================================== *)

Section FloatFacts.

Local Open Scope float_scope.

Lemma SFcompare_Eq_sym (a b : spec_float) :
  SFcompare a b = Some Eq -> SFcompare b a = Some Eq.
Proof.
  destruct a as [sa| sa| |sa ma ea], b as [sb| sb| |sb mb eb]; simpl;
    try discriminate; try reflexivity;
    try (destruct sa; discriminate); try (destruct sb; discriminate);
    try (destruct sa, sb; (discriminate || reflexivity)).
  intros H.
  assert (Hem : sa = sb /\ ea = eb /\ ma = mb).
  { destruct sa, sb; try discriminate;
      destruct (Z.compare ea eb) eqn:He; try discriminate;
      apply Z.compare_eq in He; repeat split; try assumption;
      apply Pos.compare_eq; unfold Pos.compare;
      destruct (Pos.compare_cont Eq ma mb); (discriminate || reflexivity). }
  destruct Hem as (-> & -> & ->). exact H.
Qed.

(** [a === b] excludes [b < a]. *)
Lemma eqb_true_ltb_false (a b : float) :
  (a =? b) = true -> (b <? a) = false.
Proof.
  rewrite eqb_spec, ltb_spec. unfold SFeqb, SFltb. intros H.
  destruct (SFcompare (Prim2SF a) (Prim2SF b)) as [[]|] eqn:E; try discriminate.
  now rewrite (SFcompare_Eq_sym _ _ E).
Qed.

(** A number is truthy exactly when it is below or above zero. *)
Lemma ToBoolean_spec (v : float) :
  ToBoolean v = (v <? 0) || (0 <? v).
Proof.
  unfold ToBoolean, is_nan, is_zero.
  rewrite !eqb_spec, !ltb_spec.
  change (Prim2SF zero) with (S754_zero false).
  change (Prim2SF 0) with (S754_zero false).
  unfold SFeqb, SFltb.
  destruct (Prim2SF v) as [s| s| |s m e]; simpl; try reflexivity.
  - destruct s; reflexivity.
  - destruct s; simpl; rewrite Z.compare_refl;
      change (Pos.compare_cont Eq m m) with (Pos.compare m m);
      rewrite Pos.compare_refl; reflexivity.
Qed.




End FloatFacts.

(* ===================================================================== *)
(** * Facts about strings *)
(* ===================================================================== *)

Section StringFacts.

Lemma startsWith_iff (s p : jsstring) :
  startsWith s p = true <-> exists t, s = p ++ t.
Proof.
  revert s. induction p as [|a p IH]; intros s; simpl.
  - split; [intros _; now exists s | reflexivity].
  - destruct s as [|b s]; simpl.
    + split; [discriminate | intros [t Ht]; discriminate].
    + rewrite andb_true_iff, N.eqb_eq, IH. split.
      * intros [-> [t ->]]. now exists t.
      * intros [t Ht]. injection Ht as -> ->. split; [reflexivity | now exists t].
Qed.

Lemma endsWith_iff (s p : jsstring) :
  endsWith s p = true <-> exists t, s = t ++ p.
Proof.
  unfold endsWith. rewrite startsWith_iff. split.
  - intros [t Ht]. exists (rev t).
    rewrite <- (rev_involutive s), Ht, rev_app_distr, rev_involutive.
    reflexivity.
  - intros [t ->]. exists (rev t). apply rev_app_distr.
Qed.

Lemma strictEq_iff (a b : jsstring) : strictEq a b = true <-> a = b.
Proof.
  revert b. induction a as [|c a IH]; intros [|d b]; simpl;
    try (split; (reflexivity || discriminate)).
  rewrite andb_true_iff, N.eqb_eq, IH. split.
  - intros [-> ->]. reflexivity.
  - intros H. injection H as -> ->. now split.
Qed.

End StringFacts.

(* ===================================================================== *)
(** * The text reconstruction engine: properties *)
(* ===================================================================== *)

Section ReconstructFacts.

Local Open Scope float_scope.

Lemma step_past_first (st : State) (item : Fragment) :
  (lastY st =? -1) = false ->
  step st item =
    if isNewParagraph item (lastY st) then startsParagraph st item
    else continuesParagraph st item.
Proof. intros H. unfold step. rewrite H. reflexivity. Qed.

(** The gap test at and above the threshold, for an item that follows one
    whose [y] is not the marker [-1]. *)
Lemma step_gap_threshold (st : State) (item : Fragment) :
  (lastY st =? -1) = false ->
  ((diffY item (lastY st) =? height item * 1.5) = true ->
   step st item = continuesParagraph st item) /\
  ((height item * 1.5 <? diffY item (lastY st)) = true ->
   step st item = startsParagraph st item).
Proof.
  intros H. rewrite (step_past_first _ _ H). unfold isNewParagraph. split.
  - intros E. now rewrite (eqb_true_ltb_false _ _ E).
  - intros L. now rewrite L.
Qed.

(** C2 (as amended). The height used in the gap test is the reported height
    when that is a number below or above zero (a negative height is kept),
    and 10 when the height is absent, null, zero or NaN. *)
Theorem height_used_in_gap_test (item : TextItem) :
  height (toFragment item) =
    match item_height item with
    | JSnumber v => if (v <? 0) || (0 <? v) then v else 10
    | JSundefined | JSnull => 10
    end.
Proof.
  unfold toFragment, heightOrDefault; simpl.
  destruct (item_height item) as [| |v]; try reflexivity.
  now rewrite ToBoolean_spec.
Qed.

(** C2, refuted as stated: a negative reported height is used as it is, not
    replaced by 10. *)
Lemma negative_height_is_kept :
  (-5 <? 0) = true /\
  height (toFragment (textItem "a" 700 0 (-5))) = -5 /\
  (height (toFragment (textItem "a" 700 0 (-5))) =? 10) = false.
Proof. repeat split; vm_compute; reflexivity. Qed.

(** C3, the failing input. The second fragment lies 99 units below the first,
    far above the threshold 12 * 1.5 = 18, yet both end in one paragraph:
    the first fragment's [y] is [-1], the marker for an unset [lastY]. *)
Theorem gap_split_lost_after_y_minus_one :
  isNewParagraph (toFragment (textItem "B" (-100) 0 12)) (-1) = true /\
  reconstructPage [textItem "A" (-1) 0 12; textItem "B" (-100) 0 12]
    = lit "<p>AB</p>".
Proof. split; vm_compute; reflexivity. Qed.

(** C9. The three fragments of the scenario, at any [x], give the two
    paragraphs [<p>Hello World</p><p>New para</p>]; the sort by descending
    [y] makes the result the same when the page lists them bottom-up. *)
Theorem scenario_hello_world (x1 x2 x3 : float) :
  reconstructPage
    [textItem "Hello" 700 x1 12; textItem "World" 699 x2 12;
     textItem "New para" 650 x3 12]
  = lit "<p>Hello World</p><p>New para</p>" /\
  reconstructPage
    [textItem "New para" 650 x3 12; textItem "World" 699 x2 12;
     textItem "Hello" 700 x1 12]
  = lit "<p>Hello World</p><p>New para</p>".
Proof. split; vm_compute; reflexivity. Qed.




(** C8, past the first-item branch.  With [lastY] other than [-1], a
    fragment that continues the paragraph is appended after a single space
    exactly when the buffer does not end with a space and the fragment does
    not start with one; otherwise it is appended as it is.  So "hello" and
    "world" give "hello world", and so do "hello " and "world". *)
Theorem same_line_spacing :
  (forall (st : State) (item : Fragment),
     (lastY st =? -1) = false ->
     isNewParagraph item (lastY st) = false ->
     exists sep,
       currentParagraph (step st item)
         = currentParagraph st ++ sep ++ str item /\
       (sep = lit " " \/ sep = []) /\
       (sep = lit " " <->
        ~ endsWithSpace (currentParagraph st) /\ ~ startsWithSpace (str item)))
  /\ reconstructPage [textItem "hello" 700 0 12; textItem "world" 700 40 12]
       = lit "<p>hello world</p>"
  /\ reconstructPage [textItem "hello " 700 0 12; textItem "world" 700 40 12]
       = lit "<p>hello world</p>".
Proof.
  split; [|split; vm_compute; reflexivity].
  intros st item H G. rewrite (step_past_first _ _ H), G.
  unfold continuesParagraph, appendSameLine; cbn [currentParagraph].
  destruct (endsWith (currentParagraph st) (lit " ")) eqn:E;
    [|destruct (startsWith (str item) (lit " ")) eqn:B];
    cbn [negb andb app].
  - exists []. split; [reflexivity|]. split; [now right|]. split.
    + discriminate.
    + intros [Hn _]. exfalso. apply Hn. now apply endsWith_iff.
  - exists []. split; [reflexivity|]. split; [now right|]. split.
    + discriminate.
    + intros [_ Hn]. exfalso. apply Hn. now apply startsWith_iff.
  - exists (lit " "). rewrite <- app_assoc.
    split; [reflexivity|]. split; [now left|]. split; [|reflexivity].
    intros _. split; intros Hn.
    + apply endsWith_iff in Hn. congruence.
    + apply startsWith_iff in Hn. congruence.
Qed.

Lemma same_line_spacing_witness :
  exists sep,
    currentParagraph
      (step {| pageHtml := []; lastY := 700; currentParagraph := lit "hello" |}
            (toFragment (textItem "world" 700 40 12)))
      = lit "hello" ++ sep ++ lit "world" /\
    (sep = lit " " \/ sep = []) /\
    (sep = lit " " <->
     ~ endsWithSpace (lit "hello") /\ ~ startsWithSpace (lit "world")).
Proof.
  apply (proj1 same_line_spacing
           {| pageHtml := []; lastY := 700; currentParagraph := lit "hello" |}
           (toFragment (textItem "world" 700 40 12)));
    reflexivity.
Defined.

(** C8, on the failing input.  "hello" and "world" on one line whose [y] is
    [-1]: the gap test keeps them in one paragraph, the buffer does not end
    with a space and the fragment does not start with one, and yet no space
    is put between them.  After the first fragment [lastY] is [-1] again, so
    the second one takes the branch meant for the first item. *)
Theorem space_lost_after_y_minus_one :
  isNewParagraph (toFragment (textItem "world" (-1) 40 12)) (-1) = false /\
  ~ endsWithSpace (lit "hello") /\ ~ startsWithSpace (lit "world") /\
  reconstructPage [textItem "hello" (-1) 0 12; textItem "world" (-1) 40 12]
    = lit "<p>helloworld</p>".
Proof.
  split; [reflexivity|]. split; [|split; [|vm_compute; reflexivity]].
  - intros H. apply endsWith_iff in H. vm_compute in H. discriminate H.
  - intros H. apply startsWith_iff in H. vm_compute in H. discriminate H.
Qed.

(** C10. [-1] marks an unset [lastY], and it is also a coordinate: when the
    first fragment's [y] is [-1] the second fragment takes the first-item
    branch too.  Its text is appended to the buffer with no space and no gap
    test, whatever its distance, and the walk goes on from there. *)
Theorem unset_marker_collides (a b : Fragment) (rest : list Fragment) :
  (y a =? -1) = true ->
  step initial a
    = {| pageHtml := []; lastY := y a; currentParagraph := str a |} /\
  step (step initial a) b
    = {| pageHtml := []; lastY := y b;
         currentParagraph := str a ++ str b |} /\
  walk initial (a :: b :: rest)
    = walk {| pageHtml := []; lastY := y b;
              currentParagraph := str a ++ str b |} rest.
Proof.
  intros H.
  assert (Ha : step initial a
               = {| pageHtml := []; lastY := y a; currentParagraph := str a |})
    by reflexivity.
  assert (Hb : step (step initial a) b
               = {| pageHtml := []; lastY := y b;
                    currentParagraph := str a ++ str b |}).
  { rewrite Ha. unfold step; simpl. rewrite H. reflexivity. }
  repeat split; try assumption.
  unfold walk; simpl. now rewrite Hb.
Qed.

Lemma unset_marker_collides_witness :
  isNewParagraph (toFragment (textItem "B" (-100) 0 12)) (-1) = true /\
  walk initial [toFragment (textItem "A" (-1) 0 12);
                toFragment (textItem "B" (-100) 0 12)]
    = {| pageHtml := []; lastY := -100; currentParagraph := lit "AB" |}.
Proof.
  split; [reflexivity|].
  apply (unset_marker_collides
           (toFragment (textItem "A" (-1) 0 12))
           (toFragment (textItem "B" (-100) 0 12)) []).
  reflexivity.
Defined.

End ReconstructFacts.

(* ===================================================================== *)
(** * The format normalizer: properties *)
(* ===================================================================== *)

Section NormalizerFacts.

Import Normalizer.

Lemma strictEq_false (a b : jsstring) : a <> b -> strictEq a b = false.
Proof.
  intros H. destruct (strictEq a b) eqn:E; [|reflexivity].
  now apply strictEq_iff in E.
Qed.

Lemma endsWith_false (s p : jsstring) :
  ~ (exists t, s = t ++ p) -> endsWith s p = false.
Proof.
  intros H. destruct (endsWith s p) eqn:E; [|reflexivity].
  now apply endsWith_iff in E.
Qed.

Lemma png_matches_no_format :
  matchesNoFormat (lit "image/png") (lit "photo.png").
Proof.
  unfold matchesNoFormat, hasExtension.
  repeat split; try (vm_compute; discriminate);
    intros Hx; apply endsWith_iff in Hx; vm_compute in Hx; discriminate.
Defined.

(** C6, refuted as stated. The error for an unsupported input names neither
    its media type nor its extension. *)
Lemma unsupported_message_names_nothing :
  matchesNoFormat (lit "image/png") (lit "photo.png") /\
  extension (lit "photo.png") = lit "png" /\
  exists message,
    convertLocalFile {| mammoth := None; pdfjsLib := None |}
      (lit "image/png") (lit "photo.png") None = Throw message /\
    ~ namesRejected message (lit "image/png") (lit "photo.png").
Proof.
  split; [|split; [reflexivity|]].
  - exact png_matches_no_format.
  - eexists. split; [vm_compute; reflexivity|].
    unfold namesRejected. intros [Hx|Hx]; vm_compute in Hx; discriminate.
Qed.

(** C6 (as amended). An input that matches none of the three formats makes
    the normalizer fail, whatever libraries are loaded, with one fixed
    message that does not depend on the input. *)
Theorem unsupported_format_fails (window : Window) (fileType name : jsstring)
  (textData : option jsstring) :
  matchesNoFormat fileType name ->
  convertLocalFile window fileType name textData
    = Throw (lit "Failed to convert locally: Unsupported file type for offline conversion.").
Proof.
  intros (T1 & T2 & T3 & E1 & E2 & E3 & E4).
  unfold convertLocalFile, tryBlock, isHtml, isDocx, isPdf.
  rewrite (strictEq_false _ _ T1), (strictEq_false _ _ T2),
    (strictEq_false _ _ T3).
  rewrite (endsWith_false _ _ E1), (endsWith_false _ _ E2),
    (endsWith_false _ _ E3), (endsWith_false _ _ E4).
  reflexivity.
Qed.

Lemma unsupported_format_fails_witness :
  convertLocalFile {| mammoth := None; pdfjsLib := None |}
    (lit "image/png") (lit "photo.png") None
    = Throw (lit "Failed to convert locally: Unsupported file type for offline conversion.").
Proof.
  apply (unsupported_format_fails {| mammoth := None; pdfjsLib := None |}
           (lit "image/png") (lit "photo.png") None).
  exact png_matches_no_format.
Defined.

End NormalizerFacts.

(* ===================================================================== *)
(** * The EPUB packager: properties *)
(* ===================================================================== *)

Section SearchFacts.

Import Epub.

Lemma clash_startsWith (s p t : jsstring) :
  clash s p = true -> startsWith (s ++ t) p = false.
Proof.
  revert s. induction p as [|a p IH]; intros [|b s]; simpl; try discriminate.
  destruct (N.eqb a b); simpl; [apply IH | reflexivity].
Qed.

Lemma clash_app (s p t : jsstring) :
  clash s p = true -> clash (s ++ t) p = true.
Proof.
  revert s. induction p as [|a p IH]; intros [|b s]; simpl; try discriminate.
  destruct (N.eqb a b); simpl; [apply IH | reflexivity].
Qed.

Lemma clear_app (a b marker : jsstring) :
  clear a marker = true -> clear b marker = true ->
  clear (a ++ b) marker = true.
Proof.
  intros Ha Hb. induction a as [|c a IH]; simpl in *; [assumption|].
  apply andb_true_iff in Ha as [Hc Ha].
  apply andb_true_iff. split; [|now apply IH].
  now apply (clash_app (c :: a) marker b).
Qed.

(** A text without the marker's first code unit holds no start of it. *)
Lemma clear_first_unit (s : jsstring) (a : N) (m : jsstring) :
  Forall (fun c => c <> a) s -> clear s (a :: m) = true.
Proof.
  induction 1 as [|c s Hc _ IH]; simpl; [reflexivity|].
  rewrite IH, andb_true_r.
  destruct (N.eqb a c) eqn:E; [|reflexivity].
  apply N.eqb_eq in E. congruence.
Qed.

Lemma startsWith_app (p t : jsstring) : startsWith (p ++ t) p = true.
Proof. apply startsWith_iff. now exists t. Qed.

Lemma after_found (marker t : jsstring) :
  after marker (marker ++ t) = Some t.
Proof.
  destruct marker as [|a m].
  - destruct t; reflexivity.
  - cbn [after app]. change (a :: m ++ t) with ((a :: m) ++ t).
    rewrite startsWith_app. f_equal.
    now rewrite skipn_app, skipn_all, Nat.sub_diag.
Qed.

Lemma after_clear (pre marker doc : jsstring) :
  clear pre marker = true ->
  after marker (pre ++ doc) = after marker doc.
Proof.
  induction pre as [|c pre IH]; simpl; [reflexivity|].
  intros H. apply andb_true_iff in H as [Hc H].
  change (c :: pre ++ doc) with ((c :: pre) ++ doc).
  rewrite (clash_startsWith _ _ doc Hc). now apply IH.
Qed.

Lemma before_found (marker t : jsstring) :
  before marker (marker ++ t) = Some [].
Proof.
  destruct marker as [|a m].
  - destruct t; reflexivity.
  - cbn [before app]. change (a :: m ++ t) with ((a :: m) ++ t).
    now rewrite startsWith_app.
Qed.

Lemma before_clear (pre marker doc : jsstring) :
  clear pre marker = true ->
  before marker (pre ++ doc) = option_map (app pre) (before marker doc).
Proof.
  induction pre as [|c pre IH]; simpl.
  - intros _. now destruct (before marker doc).
  - intros H. apply andb_true_iff in H as [Hc H].
    change (c :: pre ++ doc) with ((c :: pre) ++ doc).
    rewrite (clash_startsWith _ _ doc Hc), (IH H).
    now destruct (before marker doc).
Qed.

(** Reading back what lies between two markers. *)
Lemma between_found (pre opening body closing post : jsstring) :
  clear pre opening = true -> clear body closing = true ->
  between opening closing (pre ++ opening ++ body ++ closing ++ post)
    = Some body.
Proof.
  intros Hp Hb. unfold between.
  rewrite (after_clear _ _ _ Hp), after_found, (before_clear _ _ _ Hb),
    before_found.
  simpl. now rewrite app_nil_r.
Qed.

Lemma isUuidUnit_not (a : N) :
  isUuidUnit a = false ->
  forall u, forallb isUuidUnit u = true -> Forall (fun c => c <> a) u.
Proof.
  intros Ha u Hu. apply Forall_forall. intros c Hc ->.
  rewrite forallb_forall in Hu. specialize (Hu _ Hc). congruence.
Qed.

End SearchFacts.

Section EpubFacts.

Import Epub.

Lemma clear_head (s marker : jsstring) (a : N) :
  hd_error marker = Some a -> Forall (fun c => c <> a) s ->
  clear s marker = true.
Proof.
  destruct marker as [|b m]; [discriminate|].
  intros [= ->]. apply clear_first_unit.
Qed.

Lemma opfIdentifier_contentOpf (title randomUUID : jsstring) :
  Forall (fun c => c <> 60%N) title ->
  forallb isUuidUnit randomUUID = true ->
  opfIdentifier (contentOpf title (urn randomUUID)) = Some (urn randomUUID).
Proof.
  intros Ht Hu. unfold opfIdentifier, contentOpf.
  match goal with
  | |- between ?o ?cl (?A ++ title ++ ?B ++ ?u ++ ?C) = _ =>
      let n := eval vm_compute in (length B - length o) in
      let k := eval vm_compute in (length cl) in
      replace B with (firstn n B ++ o) by (vm_compute; reflexivity);
      replace C with (cl ++ skipn k C) by (vm_compute; reflexivity);
      replace (A ++ title ++ (firstn n B ++ o) ++ u ++ cl ++ skipn k C)
        with ((A ++ title ++ firstn n B) ++ o ++ u ++ cl ++ skipn k C)
        by (rewrite <- !app_assoc; reflexivity)
  end.
  apply between_found.
  - apply clear_app; [vm_compute; reflexivity|].
    apply clear_app; [|vm_compute; reflexivity].
    now apply (clear_head _ _ 60%N).
  - apply clear_app; [vm_compute; reflexivity|].
    apply (clear_head _ _ 60%N); [reflexivity|].
    now apply isUuidUnit_not.
Qed.

Lemma ncxUid_tocNcx (title randomUUID : jsstring) :
  forallb isUuidUnit randomUUID = true ->
  ncxUid (tocNcx title (urn randomUUID)) = Some (urn randomUUID).
Proof.
  intros Hu. unfold ncxUid, tocNcx.
  match goal with
  | |- between ?o ?cl (?A ++ ?u ++ ?C ++ ?rest) = _ =>
      let n := eval vm_compute in (length A - length o) in
      let k := eval vm_compute in (length cl) in
      replace A with (firstn n A ++ o) by (vm_compute; reflexivity);
      replace C with (cl ++ skipn k C) by (vm_compute; reflexivity);
      replace ((firstn n A ++ o) ++ u ++ (cl ++ skipn k C) ++ rest)
        with (firstn n A ++ o ++ u ++ cl ++ (skipn k C ++ rest))
        by (rewrite <- !app_assoc; reflexivity)
  end.
  apply between_found.
  - vm_compute; reflexivity.
  - apply clear_app; [vm_compute; reflexivity|].
    apply (clear_head _ _ 34%N); [reflexivity|].
    now apply isUuidUnit_not.
Qed.

(** C5. Whenever the packager produces an archive, its first entry is
    [mimetype], stored uncompressed, with the bytes [application/epub+zip];
    and for a UUID as [crypto.randomUUID] makes them, the [dtb:uid] read
    back from [toc.ncx] and (for a title without [<]) the package identifier
    read back from [content.opf] are the same string, the URN of that
    UUID. *)
Theorem epub_mimetype_first_and_one_uuid
  (randomUUID htmlContent : jsstring) (titleArg : option jsstring) :
  exists (rest : JSZip) (opf ncx : ZipObject),
    createEpubBlob true randomUUID htmlContent titleArg
      = Normal
          {| blobParts :=
               {| name := lit "mimetype"; data := lit "application/epub+zip";
                  dir := false; compression := Some STORE |} :: rest;
             blobType := lit "application/epub+zip" |} /\
    entry rest (lit "OEBPS/content.opf") = Some opf /\
    entry rest (lit "OEBPS/toc.ncx") = Some ncx /\
    (exists title uuid,
       data opf = contentOpf title uuid /\ data ncx = tocNcx title uuid) /\
    (forallb isUuidUnit randomUUID = true ->
     ncxUid (data ncx) = Some (lit "urn:uuid:" ++ randomUUID) /\
     (Forall (fun c => c <> 60%N)
        (match titleArg with Some t => t | None => defaultTitle end) ->
      opfIdentifier (data opf) = Some (lit "urn:uuid:" ++ randomUUID))).
Proof.
  set (title := match titleArg with Some t => t | None => defaultTitle end).
  eexists _,
    {| name := lit "OEBPS/content.opf";
       data := contentOpf title (urn randomUUID);
       dir := false; compression := None |},
    {| name := lit "OEBPS/toc.ncx";
       data := tocNcx title (urn randomUUID);
       dir := false; compression := None |}.
  split; [|split; [|split; [|split]]].
  - unfold createEpubBlob. fold title. cbn [negb].
    unfold file, folder. cbn [put existsb app fst snd].
    reflexivity.
  - reflexivity.
  - reflexivity.
  - exists title, (urn randomUUID). split; reflexivity.
  - intros Hu. cbn [data]. split.
    + now apply ncxUid_tocNcx.
    + intros Ht. now apply opfIdentifier_contentOpf.
Qed.

Lemma epub_mimetype_first_and_one_uuid_witness :
  exists (rest : JSZip) (opf ncx : ZipObject),
    createEpubBlob true (lit "123e4567-e89b-42d3-a456-426614174000")
      (lit "<p>x</p>") (Some (lit "Book"))
      = Normal
          {| blobParts :=
               {| name := lit "mimetype"; data := lit "application/epub+zip";
                  dir := false; compression := Some STORE |} :: rest;
             blobType := lit "application/epub+zip" |} /\
    entry rest (lit "OEBPS/content.opf") = Some opf /\
    entry rest (lit "OEBPS/toc.ncx") = Some ncx /\
    ncxUid (data ncx)
      = Some (lit "urn:uuid:123e4567-e89b-42d3-a456-426614174000") /\
    opfIdentifier (data opf)
      = Some (lit "urn:uuid:123e4567-e89b-42d3-a456-426614174000").
Proof.
  destruct (epub_mimetype_first_and_one_uuid
              (lit "123e4567-e89b-42d3-a456-426614174000")
              (lit "<p>x</p>") (Some (lit "Book")))
    as (rest & opf & ncx & Hb & Ho & Hn & _ & Hu).
  exists rest, opf, ncx.
  destruct (Hu eq_refl) as [Hx Hy].
  repeat split; try assumption.
  apply Hy. repeat constructor; discriminate.
Defined.

End EpubFacts.

(* ===================================================================== *)
(** * The MOBI encoder: properties *)
(* ===================================================================== *)

Section MobiFacts.

Import Mobi.
Import JS.Notations.

Lemma store_framed (offset : nat) (bytes : list N) :
  framed (fun view => store view offset bytes).
Proof.
  intros pre suf pre'. unfold store.
  destruct (offset + length bytes <=? length pre) eqn:E; [|discriminate].
  apply Nat.leb_le in E. intros [= <-].
  assert (E' : (offset + length bytes <=? length (pre ++ suf)) = true).
  { apply Nat.leb_le. rewrite length_app. lia. }
  rewrite E'. f_equal.
  rewrite firstn_app, skipn_app.
  replace (offset - length pre) with 0 by lia.
  replace (offset + length bytes - length pre) with 0 by lia.
  simpl. now rewrite app_nil_r, <- !app_assoc.
Qed.

Lemma bind_framed (f : DataView -> completion DataView)
  (g : DataView -> completion DataView) :
  framed f -> framed g -> framed (fun view => bind (f view) g).
Proof.
  intros Hf Hg pre suf pre'. simpl.
  destruct (f pre) as [mid|m] eqn:E; simpl; [|discriminate].
  rewrite (Hf _ suf _ E). simpl. apply Hg.
Qed.

Lemma writeLoop_framed (offset : nat) (bytes : list N) (n i : nat) :
  framed (fun view => writeLoop view offset bytes i n).
Proof.
  revert i. induction n as [|n IH]; intros i; simpl.
  - intros pre suf pre' [= <-]. reflexivity.
  - apply (bind_framed (fun view => setUint8 view (offset + i) _)
             (fun view => writeLoop view offset bytes (S i) n)).
    + apply store_framed.
    + apply IH.
Qed.

Lemma writeString_framed (offset : nat) (s : jsstring) (len : nat) :
  framed (fun view => writeString view offset s len).
Proof. apply writeLoop_framed. Qed.

Lemma writeHeaders_framed (title : jsstring) (now : Z) (contentLen : nat) :
  framed (writeHeaders title now contentLen).
Proof.
  unfold writeHeaders, writePdbHeader, writeRecordList, writeRecord0,
    setUint8, setUint16, setUint32.
  repeat first
    [ apply store_framed
    | apply writeString_framed
    | apply (bind_framed (fun view => store view _ _))
    | apply (bind_framed (fun view => writeString view _ _ _))
    | apply (bind_framed (fun view => bind _ _)) ].
Qed.

(** The header block on a zeroed buffer of exactly its size. *)
Lemma writeHeaders_zeroed (title : jsstring) (now : Z) (contentLen : nat) :
  exists hdr,
    writeHeaders title now contentLen (ArrayBuffer 342) = Normal hdr /\
    length hdr = 342 /\
    getUint32 hdr 78 = Some 94%Z /\
    getUint32 hdr 86 = Some 342%Z /\
    firstn 16 (skipn 94 hdr)
      = [0; 1; 0; 0;
         byteOf (Z.of_nat contentLen) 3; byteOf (Z.of_nat contentLen) 2;
         byteOf (Z.of_nat contentLen) 1; byteOf (Z.of_nat contentLen) 0;
         0; 1; 16; 0; 0; 0; 0; 0]%N /\
    firstn 8 (skipn 110 hdr) = [77; 79; 66; 73; 0; 0; 0; 232]%N.
Proof.
  unfold writeHeaders, writePdbHeader, writeRecordList, writeRecord0,
    writeString, setUint16, setUint32.
  set (nameBytes := stringToUint8Array (substring0 title 31)).
  set (t3 := byteOf now 3). set (t2 := byteOf now 2).
  set (t1 := byteOf now 1). set (t0 := byteOf now 0).
  set (c3 := byteOf (Z.of_nat contentLen) 3).
  set (c2 := byteOf (Z.of_nat contentLen) 2).
  set (c1 := byteOf (Z.of_nat contentLen) 1).
  set (c0 := byteOf (Z.of_nat contentLen) 0).
  clearbody nameBytes t3 t2 t1 t0 c3 c2 c1 c0.
  eexists. split; [vm_compute; reflexivity|].
  repeat split; vm_compute; reflexivity.
Qed.

Lemma store_at_end (hdr tail bytes : list N) :
  length tail = length bytes ->
  store (hdr ++ tail) (length hdr) bytes = Normal (hdr ++ bytes).
Proof.
  intros E. unfold store.
  assert (L : (length hdr + length bytes <=? length (hdr ++ tail)) = true).
  { apply Nat.leb_le. rewrite length_app. lia. }
  rewrite L. f_equal.
  rewrite firstn_app, firstn_all, Nat.sub_diag.
  rewrite skipn_app, skipn_all2 by lia.
  replace (length hdr + length bytes - length hdr) with (length tail) by lia.
  now rewrite skipn_all, !app_nil_r.
Qed.

Lemma getUint32_app (hdr tail : list N) (offset : nat) :
  offset + 4 <= length hdr ->
  getUint32 (hdr ++ tail) offset = getUint32 hdr offset.
Proof.
  intros H. unfold getUint32.
  rewrite skipn_app, firstn_app, length_skipn.
  replace (4 - (length hdr - offset)) with 0 by lia.
  now rewrite firstn_O, app_nil_r.
Qed.

Lemma slice_app (hdr tail : list N) (offset len : nat) :
  offset + len <= length hdr ->
  firstn len (skipn offset (hdr ++ tail)) = firstn len (skipn offset hdr).
Proof.
  intros H. rewrite skipn_app, firstn_app, length_skipn.
  replace (len - (length hdr - offset)) with 0 by lia.
  now rewrite firstn_O, app_nil_r.
Qed.

Lemma records_after_headers (title : jsstring) (now : Z)
  (contentBytes hdr : list N) :
  writeHeaders title now (length contentBytes) (ArrayBuffer 342)
    = Normal hdr ->
  length hdr = 342 ->
  (view <- writePdbHeader title now
             (ArrayBuffer (342 + length contentBytes)) ;;
   view <- writeRecordList view ;;
   view <- writeRecord0 (length contentBytes) view ;;
   view <- writeRecord1 contentBytes view ;;
   Normal {| blobParts := view;
             blobType := lit "application/x-mobipocket-ebook" |})
  = Normal {| blobParts := hdr ++ contentBytes;
              blobType := lit "application/x-mobipocket-ebook" |}.
Proof.
  intros Hw Hl.
  apply (writeHeaders_framed _ _ _ _ (repeat 0%N (length contentBytes))) in Hw.
  unfold ArrayBuffer in *. rewrite repeat_app.
  unfold writeHeaders in Hw.
  destruct (writePdbHeader title now _) as [v1|]; cbn [bind] in *;
    [|discriminate].
  destruct (writeRecordList v1) as [v2|]; cbn [bind] in *; [|discriminate].
  rewrite Hw. cbn [bind]. unfold writeRecord1.
  change contentStart with 342. rewrite <- Hl.
  rewrite store_at_end by apply repeat_length.
  reflexivity.
Qed.

(** The buffer is the header block followed by the text record. *)
Lemma createMobiBlob_layout (dateNow : Z) (htmlContent : jsstring)
  (titleArg : option jsstring) (title : jsstring) (contentBytes : list N) :
  title = match titleArg with Some t => t | None => defaultTitle end ->
  contentBytes = stringToUint8Array (fullContent title htmlContent) ->
  exists hdr,
    writeHeaders title (palmTime dateNow) (length contentBytes)
      (ArrayBuffer 342) = Normal hdr /\
    length hdr = 342 /\
    createMobiBlob dateNow htmlContent titleArg
      = Normal {| blobParts := hdr ++ contentBytes;
                  blobType := lit "application/x-mobipocket-ebook" |}.
Proof.
  intros Ht Hc.
  destruct (writeHeaders_zeroed title (palmTime dateNow) (length contentBytes))
    as (hdr & Hw & Hl & _).
  exists hdr. split; [exact Hw|]. split; [exact Hl|].
  rewrite <- (records_after_headers _ _ _ _ Hw Hl).
  subst title contentBytes. reflexivity.
Qed.

(** C4. For every input the record-info table holds the positions at which
    the records really start: the entry at byte 78 holds 94, where Record 0
    (the PalmDOC header, then the MOBI header) begins, and the entry at byte
    86 holds 342, where Record 1 (the text) begins; 94 is the PDB header and
    two record-info entries, 342 adds the 16 and 232 bytes of the two
    headers. *)
Theorem record_info_offsets_locate_records (dateNow : Z)
  (htmlContent : jsstring) (titleArg : option jsstring) :
  let title := match titleArg with Some t => t | None => defaultTitle end in
  let contentBytes := stringToUint8Array (fullContent title htmlContent) in
  let contentLen := Z.of_nat (length contentBytes) in
  exists view,
    createMobiBlob dateNow htmlContent titleArg
      = Normal {| blobParts := view;
                  blobType := lit "application/x-mobipocket-ebook" |} /\
    getUint32 view 78 = Some (Z.of_nat rec0Start) /\
    getUint32 view 86 = Some (Z.of_nat contentStart) /\
    rec0Start = 94 /\ 94 = 78 + 2 * 8 /\
    contentStart = 342 /\ 342 = 94 + 16 + 232 /\
    firstn 16 (skipn rec0Start view)
      = [0; 1; 0; 0;
         byteOf contentLen 3; byteOf contentLen 2;
         byteOf contentLen 1; byteOf contentLen 0;
         0; 1; 16; 0; 0; 0; 0; 0]%N /\
    firstn 8 (skipn (rec0Start + 16) view)
      = [77; 79; 66; 73; 0; 0; 0; 232]%N /\
    skipn contentStart view = contentBytes /\
    length view = contentStart + length contentBytes.
Proof.
  intros title contentBytes contentLen.
  destruct (writeHeaders_zeroed title (palmTime dateNow) (length contentBytes))
    as (hdr & Hw & Hl & H78 & H86 & Hpalm & Hmobi).
  destruct (createMobiBlob_layout dateNow htmlContent titleArg title
              contentBytes eq_refl eq_refl)
    as (hdr' & Hw' & _ & Hblob).
  rewrite Hw in Hw'. injection Hw' as <-.
  exists (hdr ++ contentBytes). split; [exact Hblob|].
  change rec0Start with 94. change contentStart with 342.
  rewrite !getUint32_app, !slice_app by lia.
  repeat split; try assumption.
  - now rewrite skipn_app, skipn_all2, Hl, Nat.sub_diag by lia.
  - rewrite length_app. lia.
Qed.

Lemma stringToUint8Array_ascii (c : N) (s : jsstring) :
  (c <? 128)%N = true ->
  stringToUint8Array (c :: s) = c :: stringToUint8Array s.
Proof.
  intros H. apply N.ltb_lt in H.
  unfold stringToUint8Array. cbn [codePoints].
  assert (Hh : isHighSurrogate c = false).
  { unfold isHighSurrogate. apply andb_false_iff. left.
    apply N.leb_gt. lia. }
  assert (Hl : isLowSurrogate c = false).
  { unfold isLowSurrogate. apply andb_false_iff. left.
    apply N.leb_gt. lia. }
  rewrite Hh, Hl. cbn [flat_map]. unfold utf8 at 1.
  apply N.ltb_lt in H. now rewrite H.
Qed.

Lemma stringToUint8Array_ascii_prefix (p s : jsstring) :
  forallb (fun c => (c <? 128)%N) p = true ->
  stringToUint8Array (p ++ s) = p ++ stringToUint8Array s.
Proof.
  induction p as [|c p IH]; simpl; [reflexivity|].
  intros H. apply andb_true_iff in H as [Hc Hp].
  rewrite (stringToUint8Array_ascii _ _ Hc), (IH Hp). reflexivity.
Qed.

(** C7, refuted as stated. For an empty HTML input the text record is not
    empty and the buffer is longer than the 342 bytes of its headers: the
    record holds the wrapper built around the title. *)
Lemma empty_html_text_record_is_not_empty :
  exists view,
    createMobiBlob 1700000000000 [] (Some (lit "empty"))
      = Normal {| blobParts := view;
                  blobType := lit "application/x-mobipocket-ebook" |} /\
    length view = 415 /\
    length view <> 342 /\
    skipn contentStart view
      = lit "<html><head><title>empty</title></head><body><h1>empty</h1></body></html>" /\
    skipn contentStart view <> [].
Proof.
  eexists. split; [vm_compute; reflexivity|].
  repeat split; try (vm_compute; reflexivity); vm_compute; discriminate.
Qed.

(** C7 (as amended). For an empty HTML input the MOBI buffer is the 342
    header bytes followed by the UTF-8 bytes of the wrapper
    [<html><head><title>T</title></head><body><h1>T</h1></body></html>]
    built around the title [T]; the text record is never empty, it starts
    with the 19 bytes of [<html><head><title>].  The EPUB archive is
    produced with its eight entries, and its [content.xhtml] holds the title
    heading and an empty body text. *)
Theorem empty_html_outputs (dateNow : Z) (randomUUID : jsstring)
  (titleArg : option jsstring) :
  let title := match titleArg with Some t => t | None => defaultTitle end in
  let wrapper := stringToUint8Array (fullContent title []) in
  (exists view,
     createMobiBlob dateNow [] titleArg
       = Normal {| blobParts := view;
                   blobType := lit "application/x-mobipocket-ebook" |} /\
     length view = 342 + length wrapper /\
     skipn contentStart view = wrapper /\
     firstn 19 (skipn contentStart view) = lit "<html><head><title>" /\
     342 + 19 <= length view) /\
  (exists zip xhtml,
     Epub.createEpubBlob true randomUUID [] titleArg
       = Normal {| blobParts := zip; blobType := lit "application/epub+zip" |} /\
     map Epub.name zip
       = [lit "mimetype"; lit "META-INF/"; lit "META-INF/container.xml";
          lit "OEBPS/"; lit "OEBPS/style.css"; lit "OEBPS/content.xhtml";
          lit "OEBPS/content.opf"; lit "OEBPS/toc.ncx"] /\
     entry zip (lit "OEBPS/content.xhtml") = Some xhtml /\
     Epub.data xhtml = Epub.xhtmlContent title []).
Proof.
  intros title wrapper. split.
  - destruct (createMobiBlob_layout dateNow [] titleArg title wrapper
                eq_refl eq_refl) as (hdr & _ & Hl & Hblob).
    assert (Hw : wrapper = lit "<html><head><title>"
                   ++ stringToUint8Array
                        (title ++ lit "</title></head><body><h1>" ++ title
                         ++ lit "</h1>" ++ [] ++ lit "</body></html>")).
    { unfold wrapper, fullContent.
      now rewrite stringToUint8Array_ascii_prefix by reflexivity. }
    assert (Hs : skipn contentStart (hdr ++ wrapper) = wrapper).
    { change contentStart with 342.
      now rewrite skipn_app, skipn_all2, Hl, Nat.sub_diag by lia. }
    exists (hdr ++ wrapper). split; [exact Hblob|].
    rewrite Hs, length_app, Hl.
    set (rest := stringToUint8Array _) in Hw.
    clearbody wrapper rest. subst wrapper.
    rewrite length_app, firstn_app.
    change (length (lit "<html><head><title>")) with 19.
    rewrite Nat.sub_diag, firstn_O, app_nil_r.
    split; [reflexivity|]. split; [reflexivity|]. split; [reflexivity|]. lia.
  - eexists _, {| Epub.name := lit "OEBPS/content.xhtml";
                  Epub.data := Epub.xhtmlContent title [];
                  Epub.dir := false; Epub.compression := None |}.
    repeat split; reflexivity.
Qed.

End MobiFacts.

(* ===================================================================== *)
(** * The text reconstruction engine: further properties *)
(* ===================================================================== *)

Section TrimFacts.

Local Arguments isWhiteSpace : simpl never.

Lemma trimStart_blank (s : jsstring) : blank s -> trimStart s = [].
Proof.
  unfold blank. induction s as [|c s IH]; simpl; [reflexivity|].
  intros H. apply andb_true_iff in H as [Hc Hs]. rewrite Hc. now apply IH.
Qed.

Lemma blank_rev (s : jsstring) : blank s -> blank (rev s).
Proof.
  unfold blank. rewrite !forallb_forall. intros H c Hc.
  apply H. now apply in_rev.
Qed.

Lemma blank_app (a b : jsstring) : blank a -> blank b -> blank (a ++ b).
Proof. unfold blank. intros Ha Hb. now rewrite forallb_app, Ha, Hb. Qed.

Lemma trim_blank (s : jsstring) : blank s -> trim s = [].
Proof.
  intros H. unfold trim, trimEnd. now rewrite (trimStart_blank _ H).
Qed.

Lemma trimStart_head (s : jsstring) (c : N) (t : jsstring) :
  trimStart s = c :: t -> isWhiteSpace c = false.
Proof.
  induction s as [|d s IH]; simpl; [discriminate|].
  destruct (isWhiteSpace d) eqn:E; [exact IH|].
  intros [= <- _]. exact E.
Qed.

Lemma trimStart_snoc (s : jsstring) (c : N) :
  isWhiteSpace c = false -> trimStart (s ++ [c]) = trimStart s ++ [c].
Proof.
  intros Hc. induction s as [|d s IH]; simpl.
  - now rewrite Hc.
  - destruct (isWhiteSpace d); [exact IH | reflexivity].
Qed.

Lemma trimEnd_cons (c : N) (s : jsstring) :
  isWhiteSpace c = false -> trimEnd (c :: s) = c :: trimEnd s.
Proof.
  intros Hc. unfold trimEnd. simpl.
  now rewrite (trimStart_snoc _ _ Hc), rev_app_distr.
Qed.

Lemma trimStart_idem (s : jsstring) : trimStart (trimStart s) = trimStart s.
Proof.
  induction s as [|c s IH]; simpl; [reflexivity|].
  destruct (isWhiteSpace c) eqn:E; [exact IH|]. simpl. now rewrite E.
Qed.

Lemma trimEnd_idem (s : jsstring) : trimEnd (trimEnd s) = trimEnd s.
Proof. unfold trimEnd. now rewrite rev_involutive, trimStart_idem. Qed.

Lemma trim_idem (s : jsstring) : trim (trim s) = trim s.
Proof.
  unfold trim. destruct (trimStart s) as [|c t] eqn:E; [reflexivity|].
  pose proof (trimStart_head _ _ _ E) as Hc.
  rewrite (trimEnd_cons _ _ Hc). simpl. rewrite Hc.
  now rewrite (trimEnd_cons _ _ Hc), trimEnd_idem.
Qed.

Lemma inked_app (a b : jsstring) : inked (a ++ b) = inked a ++ inked b.
Proof. apply filter_app. Qed.

Lemma inked_blank (s : jsstring) : blank s -> inked s = [].
Proof.
  unfold blank, inked. induction s as [|c s IH]; simpl; [reflexivity|].
  intros H. apply andb_true_iff in H as [Hc Hs]. rewrite Hc. now apply IH.
Qed.

Lemma inked_trimStart (s : jsstring) : inked (trimStart s) = inked s.
Proof.
  unfold inked. induction s as [|c s IH]; simpl; [reflexivity|].
  destruct (isWhiteSpace c) eqn:E; simpl; rewrite ?E; simpl;
    [exact IH | reflexivity].
Qed.

Lemma inked_rev (s : jsstring) : inked (rev s) = rev (inked s).
Proof.
  induction s as [|c s IH]; simpl; [reflexivity|].
  rewrite inked_app, IH. unfold inked. simpl.
  destruct (isWhiteSpace c); simpl; [now rewrite app_nil_r | reflexivity].
Qed.

Lemma inked_trim (s : jsstring) : inked (trim s) = inked s.
Proof.
  unfold trim, trimEnd.
  now rewrite inked_rev, inked_trimStart, inked_rev, rev_involutive,
    inked_trimStart.
Qed.

End TrimFacts.

(* ===================================================================== *)
(** * The text reconstruction engine: paragraphs, order and gaps *)
(* ===================================================================== *)

(** Consistency of a comparator over a short list of given fragments, by
    running it on every pair and triple. *)
Ltac consistent_by_cases :=
  let a := fresh "a" in let b := fresh "b" in let c := fresh "c" in
  let Ha := fresh "Ha" in let Hb := fresh "Hb" in let Hd := fresh "Hd" in
  intros a b c Ha Hb Hd; simpl in Ha, Hb, Hd;
  repeat match goal with
         | H : _ \/ _ |- _ => destruct H as [<-|H]
         | H : False |- _ => destruct H
         end;
  unfold ties, tie, sortsBefore, sortsAfter;
  repeat split; vm_compute; intros; congruence.

Section ReconstructMore.

Local Arguments isWhiteSpace : simpl never.

Lemma insert_permutation (cmp : Fragment -> Fragment -> float) (e : Fragment)
  (l : list Fragment) : Permutation (insert cmp e l) (e :: l).
Proof.
  induction l as [|f l IH]; simpl; [reflexivity|].
  destruct (0 <? cmp f e)%float; [reflexivity|].
  rewrite IH. apply perm_swap.
Qed.

Lemma fold_insert_permutation (cmp : Fragment -> Fragment -> float)
  (l acc : list Fragment) :
  Permutation (fold_left (fun acc e => insert cmp e acc) l acc) (acc ++ l).
Proof.
  revert acc. induction l as [|e l IH]; intros acc; simpl.
  - now rewrite app_nil_r.
  - rewrite IH, insert_permutation. apply Permutation_middle.
Qed.

(** X1. Sorting loses nothing and makes nothing up: whatever the comparator
    answers, the sorted fragments are the given ones in some order, as many
    as before. *)
Theorem sort_permutation (cmp : Fragment -> Fragment -> float)
  (items : list Fragment) :
  Permutation (sort cmp items) items /\ length (sort cmp items) = length items.
Proof.
  assert (H : Permutation (sort cmp items) items)
    by apply (fold_insert_permutation cmp items []).
  split; [exact H | now apply Permutation_length].
Qed.

Lemma trimmed_trim (s : jsstring) : trim s <> [] -> trimmed (trim s).
Proof. intros H. split; [exact H | apply trim_idem]. Qed.

Lemma trimmed_inked (p : jsstring) : trimmed p -> inked p <> [].
Proof.
  intros [Hne Ht]. destruct p as [|c t]; [congruence|].
  unfold trim in Ht. destruct (trimStart (c :: t)) as [|d t'] eqn:E.
  - discriminate.
  - pose proof (trimStart_head _ _ _ E) as Hd.
    rewrite (trimEnd_cons _ _ Hd) in Ht. injection Ht as -> _.
    unfold inked. simpl. now rewrite Hd.
Qed.

Lemma flush_flushed (ps : list jsstring) (cur : jsstring) :
  flush (concat (map paragraph ps)) cur
    = concat (map paragraph (flushed ps cur)).
Proof.
  unfold flush, flushed. destruct (trim cur) as [|c t]; [reflexivity|].
  rewrite map_app, concat_app. simpl. now rewrite app_nil_r.
Qed.

Lemma flushed_trimmed (ps : list jsstring) (cur : jsstring) :
  Forall trimmed ps -> Forall trimmed (flushed ps cur).
Proof.
  intros H. unfold flushed. destruct (trim cur) as [|c t] eqn:E; [exact H|].
  apply Forall_app. split; [exact H|]. constructor; [|constructor].
  rewrite <- E. apply trimmed_trim. now rewrite E.
Qed.

Lemma flushed_inked (ps : list jsstring) (cur : jsstring) :
  inked (concat (flushed ps cur)) = inked (concat ps ++ cur).
Proof.
  unfold flushed. rewrite inked_app, <- (inked_trim cur).
  destruct (trim cur) as [|c t]; [now rewrite app_nil_r|].
  rewrite concat_app, inked_app. simpl. now rewrite app_nil_r.
Qed.

Lemma flushed_length (ps : list jsstring) (cur : jsstring) :
  length (flushed ps cur) <= length ps + 1.
Proof.
  unfold flushed. destruct (trim cur); [lia|]. rewrite length_app. simpl. lia.
Qed.

Lemma inked_appendSameLine (cur s : jsstring) :
  inked (appendSameLine cur s) = inked cur ++ inked s.
Proof.
  unfold appendSameLine.
  destruct (negb (endsWith cur (lit " ")) && negb (startsWith s (lit " ")));
    rewrite !inked_app; [|reflexivity].
  change (inked (lit " ")) with (@nil N). now rewrite app_nil_r.
Qed.

Lemma step_paragraphsSoFar (done : list Fragment) (st : State)
  (ps : list jsstring) (item : Fragment) :
  paragraphsSoFar done st ps ->
  exists ps', paragraphsSoFar (done ++ [item]) (step st item) ps'.
Proof.
  intros (Hh & Ht & Hi & H0 & Hl).
  assert (Hd : inked (concat (map str (done ++ [item])))
               = inked (concat (map str done)) ++ inked (str item)).
  { rewrite map_app, concat_app, inked_app. simpl. now rewrite app_nil_r. }
  assert (Hn : done ++ [item] <> []) by (now destruct done).
  assert (Hlen : length (done ++ [item]) = length done + 1)
    by (rewrite length_app; reflexivity).
  assert (Hlt : forall qs : list jsstring, length qs <= length ps + 1 ->
                 (done = [] -> qs = []) ->
                 done ++ [item] <> [] -> length qs < length (done ++ [item])).
  { intros qs Hq Hz _. rewrite Hlen. destruct done as [|d done'].
    - rewrite (Hz eq_refl). simpl. lia.
    - assert (Hx : d :: done' <> []) by discriminate.
      specialize (Hl Hx). lia. }
  unfold step.
  destruct (lastY st =? -1)%float; [|destruct (isNewParagraph item (lastY st))].
  - exists ps. unfold paragraphsSoFar; cbn [pageHtml currentParagraph].
    split; [exact Hh|]. split; [exact Ht|]. split; [|split].
    + now rewrite Hd, <- Hi, app_assoc, inked_app.
    + intros E. contradiction.
    + apply Hlt; [lia|]. intros E. now destruct (H0 E).
  - exists (flushed ps (currentParagraph st)).
    unfold paragraphsSoFar; cbn [pageHtml currentParagraph].
    split; [rewrite Hh; apply flush_flushed|].
    split; [now apply flushed_trimmed|]. split; [|split].
    + now rewrite Hd, <- Hi, inked_app, flushed_inked.
    + intros E. contradiction.
    + apply Hlt; [apply flushed_length|].
      intros E. destruct (H0 E) as [-> ->]. reflexivity.
  - exists ps. unfold paragraphsSoFar; cbn [pageHtml currentParagraph].
    split; [exact Hh|]. split; [exact Ht|]. split; [|split].
    + now rewrite Hd, <- Hi, !inked_app, inked_appendSameLine, app_assoc.
    + intros E. contradiction.
    + apply Hlt; [lia|]. intros E. now destruct (H0 E).
Qed.

Lemma walk_paragraphsSoFar (items done : list Fragment) (st : State)
  (ps : list jsstring) :
  paragraphsSoFar done st ps ->
  exists ps', paragraphsSoFar (done ++ items) (walk st items) ps'.
Proof.
  revert done st ps. induction items as [|item items IH]; intros done st ps H.
  - exists ps. now rewrite app_nil_r.
  - destruct (step_paragraphsSoFar _ _ _ item H) as (ps1 & H1).
    destruct (IH _ _ _ H1) as (ps2 & H2).
    exists ps2. now rewrite <- app_assoc in H2.
Qed.

(** The output of the loop and the final flush, as a list of paragraphs. *)
Lemma reconstructSorted_paragraphs (items : list Fragment) :
  exists ps,
    reconstructSorted items = concat (map paragraph ps) /\
    Forall trimmed ps /\
    length ps <= length items /\
    inked (concat ps) = inked (concat (map str items)).
Proof.
  assert (H0 : paragraphsSoFar [] initial []).
  { repeat split; try reflexivity; try constructor. intros E. contradiction. }
  destruct (walk_paragraphsSoFar items [] initial [] H0)
    as (ps & Hh & Ht & Hi & Hz & Hl).
  simpl in *.
  exists (flushed ps (currentParagraph (walk initial items))).
  unfold reconstructSorted, finish. rewrite Hh.
  split; [apply flush_flushed|].
  split; [now apply flushed_trimmed|].
  split; [|now rewrite flushed_inked].
  destruct items as [|i items'].
  - destruct (Hz eq_refl) as [-> ->]. simpl. lia.
  - assert (Hx : i :: items' <> []) by discriminate. specialize (Hl Hx).
    pose proof (flushed_length ps (currentParagraph (walk initial (i :: items')))).
    lia.
Qed.

(** X3. On a page over whose fragments the comparator is consistent, the
    paragraph HTML is a sequence of [<p>...</p>] elements, at most one per
    fragment, none of them empty and none with white space at either end;
    and, white space apart, their texts are the fragments' texts in sorted
    order: nothing is lost, nothing is made up. *)
Theorem page_is_trimmed_paragraphs (items : list TextItem) :
  orderly items ->
  exists ps,
    reconstructPage items = concat (map paragraph ps) /\
    Forall trimmed ps /\
    length ps <= length items /\
    inked (concat ps)
      = inked (concat (map str (sort compareFn (map toFragment items)))).
Proof.
  intros _. unfold reconstructPage.
  destruct (reconstructSorted_paragraphs
              (sort compareFn (map toFragment items)))
    as (ps & Hh & Ht & Hl & Hi).
  exists ps. repeat split; try assumption.
  pose proof (Permutation_length
                (fold_insert_permutation compareFn (map toFragment items) []))
    as Hp.
  simpl in Hp. unfold sort in Hl. rewrite Hp, length_map in Hl. exact Hl.
Qed.

Lemma page_is_trimmed_paragraphs_witness :
  exists ps,
    reconstructPage [textItem " World" 700 40 12; textItem "Hello " 700 0 12;
                     textItem "Next" 650 0 12]
      = concat (map paragraph ps) /\
    Forall trimmed ps /\
    length ps <= 3 /\
    inked (concat ps) = lit "HelloWorldNext".
Proof.
  apply (page_is_trimmed_paragraphs
           [textItem " World" 700 40 12; textItem "Hello " 700 0 12;
            textItem "Next" 650 0 12]).
  unfold orderly. consistent_by_cases.
Defined.

Lemma inked_concat_blank (l : list jsstring) :
  Forall blank l -> inked (concat l) = [].
Proof.
  induction 1 as [|s l Hs _ IH]; simpl; [reflexivity|].
  now rewrite inked_app, (inked_blank _ Hs), IH.
Qed.

Lemma blank_page (items : list TextItem) :
  Forall (fun item => blank (item_str item)) items ->
  reconstructPage items = [] /\ pageOutput items = [].
Proof.
  intros H.
  assert (E : reconstructPage items = []).
  { unfold reconstructPage.
    destruct (reconstructSorted_paragraphs
                (sort compareFn (map toFragment items)))
      as (ps & Hh & Ht & _ & Hi).
    assert (Hb : Forall blank
                   (map str (sort compareFn (map toFragment items)))).
    { apply Forall_map.
      apply (Permutation_Forall
               (Permutation_sym
                  (fold_insert_permutation compareFn (map toFragment items) []))).
      simpl. apply Forall_map. exact H. }
    rewrite (inked_concat_blank _ Hb) in Hi.
    destruct ps as [|p ps]; [exact Hh|].
    exfalso. apply Forall_inv in Ht. apply trimmed_inked in Ht.
    simpl in Hi. rewrite inked_app in Hi.
    now destruct (inked p). }
  split; [exact E|]. unfold pageOutput. now rewrite E.
Qed.

(** X4. A page whose fragments hold white space only (an empty page
    included) gives no paragraph and adds nothing to the document. *)
Theorem blank_page_contributes_nothing (items : list TextItem) :
  Forall (fun item => blank (item_str item)) items ->
  reconstructPage items = [] /\ pageOutput items = [].
Proof. apply blank_page. Qed.

Lemma blank_page_contributes_nothing_witness :
  reconstructPage [textItem " " 700 0 12; textItem "  " 650 0 12] = [] /\
  pageOutput [textItem " " 700 0 12; textItem "  " 650 0 12] = [].
Proof.
  apply (blank_page_contributes_nothing
           [textItem " " 700 0 12; textItem "  " 650 0 12]).
  repeat constructor.
Defined.

Lemma lastY_step (st : State) (item : Fragment) :
  lastY (step st item) = y item.
Proof.
  unfold step.
  destruct (lastY st =? -1)%float; [reflexivity|].
  destruct (isNewParagraph item (lastY st)); reflexivity.
Qed.

Lemma walk_app (st : State) (a b : list Fragment) :
  walk st (a ++ b) = walk (walk st a) b.
Proof. apply fold_left_app. Qed.

(** X5. Whether a fragment starts a new paragraph depends on the fragment
    just before it in sorted order and on nothing earlier: with [a] right
    before [b], and [a]'s [y] other than [-1], the gap test compares [b]'s
    [y] with [a]'s, whatever came before [a] and wherever the open paragraph
    began. *)
Theorem gap_is_relative_to_previous_fragment (st : State)
  (earlier : list Fragment) (a b : Fragment) :
  (y a =? -1)%float = false ->
  walk st (earlier ++ [a; b])
    = if isNewParagraph b (y a)
      then startsParagraph (walk st (earlier ++ [a])) b
      else continuesParagraph (walk st (earlier ++ [a])) b.
Proof.
  intros H.
  change (earlier ++ [a; b]) with (earlier ++ [a] ++ [b]).
  rewrite app_assoc, (walk_app st (earlier ++ [a]) [b]). simpl.
  assert (L : lastY (walk st (earlier ++ [a])) = y a).
  { rewrite walk_app. simpl. apply lastY_step. }
  rewrite step_past_first by (now rewrite L).
  now rewrite L.
Qed.

Lemma gap_is_relative_to_previous_fragment_witness :
  walk initial
    ([toFragment (textItem "Top" 900 0 12)]
     ++ [toFragment (textItem "a" 700 0 12);
         toFragment (textItem "b" 690 0 12)])
  = continuesParagraph
      (walk initial
         ([toFragment (textItem "Top" 900 0 12)]
          ++ [toFragment (textItem "a" 700 0 12)]))
      (toFragment (textItem "b" 690 0 12)).
Proof.
  exact (gap_is_relative_to_previous_fragment initial
           [toFragment (textItem "Top" 900 0 12)]
           (toFragment (textItem "a" 700 0 12))
           (toFragment (textItem "b" 690 0 12)) eq_refl).
Defined.

End ReconstructMore.

(* ===================================================================== *)
(** * The sort over a consistent comparator *)
(* ===================================================================== *)

Section SortFacts.

Variable cmp : Fragment -> Fragment -> float.

(** A number other than [NaN] is below zero, zero or above zero, and only
    one of the three. *)
Lemma sign_cases (v : float) :
  is_nan v = false ->
  ((v <? 0) = true /\ (v =? 0) = false /\ (0 <? v) = false)%float \/
  ((v <? 0) = false /\ (v =? 0) = true /\ (0 <? v) = false)%float \/
  ((v <? 0) = false /\ (v =? 0) = false /\ (0 <? v) = true)%float.
Proof.
  unfold is_nan. rewrite !eqb_spec, !ltb_spec.
  change (Prim2SF 0) with (S754_zero false).
  unfold SFeqb, SFltb.
  destruct (Prim2SF v) as [s| s| |s m e]; simpl.
  - intros _. right; left. repeat split.
  - destruct s; intros _; [left | right; right]; repeat split.
  - discriminate.
  - destruct s; intros _; [left | right; right]; repeat split.
Qed.

Variable values : list Fragment.
Hypothesis Hc : consistent cmp values.

Lemma answer_cases (a b : Fragment) :
  In a values -> In b values ->
  (sortsBefore cmp a b /\ ~ ties cmp a b /\ ~ sortsAfter cmp a b) \/
  (~ sortsBefore cmp a b /\ ties cmp a b /\ ~ sortsAfter cmp a b) \/
  (~ sortsBefore cmp a b /\ ~ ties cmp a b /\ sortsAfter cmp a b).
Proof.
  intros Ha Hb. destruct (Hc a b b Ha Hb Hb) as (Hn & _).
  unfold sortsBefore, ties, tie, sortsAfter.
  destruct (sign_cases _ Hn) as [(-> & -> & ->)|[(-> & -> & ->)|(-> & -> & ->)]];
    [left | right; left | right; right]; repeat split; congruence.
Qed.

Lemma ties_refl (a : Fragment) : In a values -> ties cmp a a.
Proof. intros Ha. now destruct (Hc a a a Ha Ha Ha) as (_ & H & _). Qed.

Lemma ties_sym (a b : Fragment) :
  In a values -> In b values -> ties cmp a b -> ties cmp b a.
Proof. intros Ha Hb. now destruct (Hc a b b Ha Hb Hb) as (_ & _ & H & _). Qed.

Lemma ties_trans (a b c : Fragment) :
  In a values -> In b values -> In c values ->
  ties cmp a b -> ties cmp b c -> ties cmp a c.
Proof.
  intros Ha Hb Hd. now destruct (Hc a b c Ha Hb Hd) as (_ & _ & _ & H & _).
Qed.

Lemma before_trans (a b c : Fragment) :
  In a values -> In b values -> In c values ->
  sortsBefore cmp a b -> sortsBefore cmp b c -> sortsBefore cmp a c.
Proof.
  intros Ha Hb Hd. now destruct (Hc a b c Ha Hb Hd) as (_ & _ & _ & _ & H & _).
Qed.

Lemma after_trans (a b c : Fragment) :
  In a values -> In b values -> In c values ->
  sortsAfter cmp a b -> sortsAfter cmp b c -> sortsAfter cmp a c.
Proof.
  intros Ha Hb Hd. now destruct (Hc a b c Ha Hb Hd) as (_ & _ & _ & _ & _ & H).
Qed.

(** Sorting before one way is sorting after the other way. *)
Lemma before_after (a b : Fragment) :
  In a values -> In b values -> sortsBefore cmp a b -> sortsAfter cmp b a.
Proof.
  intros Ha Hb H.
  destruct (answer_cases b a Hb Ha) as [(B & _)|[(_ & T & _)|(_ & _ & A)]].
  - pose proof (before_trans a b a Ha Hb Ha H B) as Haa.
    destruct (answer_cases a a Ha Ha) as [(_ & N & _)|[(N & _)|(_ & N & _)]];
      try contradiction; exfalso; apply N; now apply ties_refl.
  - apply (ties_sym b a Hb Ha) in T.
    destruct (answer_cases a b Ha Hb) as [(_ & N & _)|[(N & _)|(N & _)]];
      contradiction.
  - exact A.
Qed.

Lemma after_before (a b : Fragment) :
  In a values -> In b values -> sortsAfter cmp a b -> sortsBefore cmp b a.
Proof.
  intros Ha Hb H.
  destruct (answer_cases b a Hb Ha) as [(B & _)|[(_ & T & _)|(_ & _ & A)]].
  - exact B.
  - apply (ties_sym b a Hb Ha) in T.
    destruct (answer_cases a b Ha Hb) as [(_ & _ & N)|[(_ & _ & N)|(_ & N & _)]];
      contradiction.
  - pose proof (after_trans a b a Ha Hb Ha H A) as Haa.
    destruct (answer_cases a a Ha Ha) as [(_ & N & _)|[(_ & _ & N)|(_ & N & _)]];
      try contradiction; exfalso; apply N; now apply ties_refl.
Qed.

(** Not sorting after: sorting before, or a tie. *)
Lemma not_after (a b : Fragment) :
  In a values -> In b values ->
  ~ sortsAfter cmp a b -> sortsBefore cmp a b \/ ties cmp a b.
Proof.
  intros Ha Hb H.
  destruct (answer_cases a b Ha Hb) as [(B & _)|[(_ & T & _)|(_ & _ & A)]];
    [now left | now right | contradiction].
Qed.

Lemma before_ties (a b c : Fragment) :
  In a values -> In b values -> In c values ->
  sortsBefore cmp a b -> ties cmp b c -> sortsBefore cmp a c.
Proof.
  intros Ha Hb Hd B T.
  destruct (answer_cases a c Ha Hd) as [(G & _)|[(_ & E & _)|(_ & _ & A)]].
  - exact G.
  - exfalso.
    pose proof (ties_trans a c b Ha Hd Hb E (ties_sym b c Hb Hd T)) as E'.
    destruct (answer_cases a b Ha Hb) as [(_ & N & _)|[(N & _)|(N & _)]];
      contradiction.
  - exfalso.
    pose proof (after_trans b a c Hb Ha Hd (before_after a b Ha Hb B) A) as A'.
    destruct (answer_cases b c Hb Hd) as [(_ & N & _)|[(_ & _ & N)|(_ & N & _)]];
      contradiction.
Qed.

Lemma ties_before (a b c : Fragment) :
  In a values -> In b values -> In c values ->
  ties cmp a b -> sortsBefore cmp b c -> sortsBefore cmp a c.
Proof.
  intros Ha Hb Hd T B.
  destruct (answer_cases a c Ha Hd) as [(G & _)|[(_ & E & _)|(_ & _ & A)]].
  - exact G.
  - exfalso.
    pose proof (ties_trans b a c Hb Ha Hd (ties_sym a b Ha Hb T) E) as E'.
    destruct (answer_cases b c Hb Hd) as [(_ & N & _)|[(N & _)|(N & _)]];
      contradiction.
  - exfalso.
    pose proof (after_trans a c b Ha Hd Hb A (before_after b c Hb Hd B)) as A'.
    destruct (answer_cases a b Ha Hb) as [(_ & _ & N)|[(_ & _ & N)|(_ & N & _)]];
      contradiction.
Qed.

Lemma not_after_trans (a b c : Fragment) :
  In a values -> In b values -> In c values ->
  ~ sortsAfter cmp a b -> ~ sortsAfter cmp b c -> ~ sortsAfter cmp a c.
Proof.
  intros Ha Hb Hd H1 H2.
  assert (G : sortsBefore cmp a c \/ ties cmp a c).
  { destruct (not_after a b Ha Hb H1) as [B1|T1],
             (not_after b c Hb Hd H2) as [B2|T2].
    - left. now apply (before_trans a b c).
    - left. now apply (before_ties a b c).
    - left. now apply (ties_before a b c).
    - right. now apply (ties_trans a b c). }
  destruct (answer_cases a c Ha Hd) as [(_ & _ & N)|[(_ & _ & N)|(N1 & N2 & _)]];
    try exact N.
  destruct G; contradiction.
Qed.

(** Two values neither of which sorts after the other tie. *)
Lemma not_after_both (a b : Fragment) :
  In a values -> In b values ->
  ~ sortsAfter cmp a b -> ~ sortsAfter cmp b a -> ties cmp a b.
Proof.
  intros Ha Hb H1 H2.
  destruct (not_after a b Ha Hb H1) as [B|T]; [|exact T].
  exfalso. apply H2. now apply before_after.
Qed.

End SortFacts.

Section SortOrder.

Variable cmp : Fragment -> Fragment -> float.

Lemma consistent_incl (l l' : list Fragment) :
  incl l' l -> consistent cmp l -> consistent cmp l'.
Proof. intros Hi Hc a b c Ha Hb Hd. apply Hc; now apply Hi. Qed.

Lemma insert_in (e x : Fragment) (l : list Fragment) :
  In x (insert cmp e l) <-> x = e \/ In x l.
Proof.
  split; intros H.
  - apply (Permutation_in _ (insert_permutation cmp e l)) in H.
    destruct H as [H|H]; [now left | now right].
  - apply (Permutation_in _ (Permutation_sym (insert_permutation cmp e l))).
    destruct H as [H|H]; [now left | now right].
Qed.

(** Over consistent values, not sorting after is all that being in order
    asks. *)
Lemma in_order_pair (values : list Fragment) (a b : Fragment) :
  consistent cmp values -> In a values -> In b values ->
  ~ sortsAfter cmp a b ->
  ~ sortsAfter cmp a b /\ ~ sortsBefore cmp b a.
Proof.
  intros Hc Ha Hb H. split; [exact H|].
  intros B. apply H. now apply (before_after cmp values).
Qed.

Lemma insert_inOrder (e : Fragment) (l : list Fragment) :
  consistent cmp (e :: l) -> inOrder cmp l -> inOrder cmp (insert cmp e l).
Proof.
  unfold inOrder. intros Hc H. induction H as [|f rest Hf Hr IH]; simpl.
  - constructor; constructor.
  - assert (Ie : In e (e :: f :: rest)) by now left.
    assert (If : In f (e :: f :: rest)) by (right; now left).
    destruct (0 <? cmp f e)%float eqn:E.
    + constructor; [|now constructor].
      assert (Hef : ~ sortsAfter cmp e f).
      { intros A.
        pose proof (after_before cmp _ Hc f e If Ie E) as B.
        destruct (answer_cases cmp _ Hc e f Ie If)
          as [(_ & _ & N)|[(_ & _ & N)|(N & _)]]; contradiction. }
      constructor.
      * now apply (in_order_pair (e :: f :: rest)).
      * rewrite Forall_forall in Hf |- *. intros g Hg.
        assert (Ig : In g (e :: f :: rest)) by (right; now right).
        apply (in_order_pair (e :: f :: rest)); try assumption.
        apply (not_after_trans cmp _ Hc e f g); try assumption.
        now apply Hf.
    + constructor.
      * rewrite Forall_forall in Hf |- *. intros g Hg.
        apply insert_in in Hg. destruct Hg as [->|Hg]; [|now apply Hf].
        apply (in_order_pair (e :: f :: rest)); try assumption.
        unfold sortsAfter. congruence.
      * apply IH. revert Hc. apply consistent_incl.
        intros g [->|Hg]; [now left | right; now right].
Qed.

(** Inserting [e] puts it behind the values that tie with it. *)
Lemma insert_filter (values : list Fragment) (v e : Fragment)
  (l : list Fragment) :
  consistent cmp values -> In v values -> incl (e :: l) values ->
  inOrder cmp l ->
  filter (tie cmp v) (insert cmp e l)
    = filter (tie cmp v) l ++ filter (tie cmp v) [e].
Proof.
  unfold inOrder. intros Hc Hv Hi H.
  assert (Ie : In e values) by (apply Hi; now left).
  induction H as [|f rest Hf Hr IH]; [reflexivity|].
  assert (If : In f values) by (apply Hi; right; now left).
  cbn [insert]. destruct (0 <? cmp f e)%float eqn:E.
  - cbn [filter app]. destruct (tie cmp v e) eqn:T;
      [|cbn [app]; now rewrite app_nil_r].
    assert (Hn : forall g, In g (f :: rest) -> tie cmp v g = false).
    { intros g Hg. destruct (tie cmp v g) eqn:G; [exfalso|reflexivity].
      assert (Ig : In g values) by (apply Hi; now right).
      assert (Hfg : ~ sortsAfter cmp f g).
      { destruct Hg as [<-|Hg].
        - destruct (answer_cases cmp _ Hc f f If If)
            as [(_ & N & _)|[(_ & _ & N)|(_ & N & _)]]; try exact N;
            exfalso; apply N; now apply (ties_refl cmp values).
        - rewrite Forall_forall in Hf. now apply Hf. }
      assert (Hge : ties cmp g e).
      { apply (ties_trans cmp _ Hc g v e); try assumption.
        now apply (ties_sym cmp values). }
      assert (Hge' : ~ sortsAfter cmp g e).
      { destruct (answer_cases cmp _ Hc g e Ig Ie)
          as [(_ & N & _)|[(_ & _ & N)|(_ & N & _)]];
          try exact N; contradiction. }
      now apply (not_after_trans cmp _ Hc f g e If Ig Ie Hfg Hge'). }
    assert (Hz : filter (tie cmp v) (f :: rest) = []).
    { clear -Hn. induction (f :: rest) as [|g l IHl]; [reflexivity|].
      simpl. rewrite (Hn g (or_introl eq_refl)). apply IHl.
      intros h Hh. apply Hn. now right. }
    change (filter (tie cmp v) (f :: rest)) with
      (if tie cmp v f then f :: filter (tie cmp v) rest
       else filter (tie cmp v) rest) in Hz.
    rewrite Hz. reflexivity.
  - cbn [filter]. rewrite IH.
    + destruct (tie cmp v f); reflexivity.
    + intros g [<-|Hg]; apply Hi; [now left | right; now right].
Qed.

Lemma fold_insert_stable (values items acc : list Fragment) :
  consistent cmp values -> incl (acc ++ items) values ->
  inOrder cmp acc ->
  inOrder cmp (fold_left (fun acc e => insert cmp e acc) items acc) /\
  forall v, In v values ->
    filter (tie cmp v) (fold_left (fun acc e => insert cmp e acc) items acc)
      = filter (tie cmp v) acc ++ filter (tie cmp v) items.
Proof.
  intros Hc. revert acc.
  induction items as [|e items IH]; intros acc Hi Ho; cbn [fold_left].
  - split; [exact Ho|]. intros v _. cbn [filter]. now rewrite app_nil_r.
  - assert (Hie : incl (e :: acc) values).
    { intros g [<-|Hg]; apply Hi, in_or_app; [right; now left | now left]. }
    assert (Hi' : incl (insert cmp e acc ++ items) values).
    { intros g Hg. apply in_app_or in Hg. destruct Hg as [Hg|Hg].
      - apply insert_in in Hg. apply Hie. destruct Hg as [->|Hg];
          [now left | now right].
      - apply Hi, in_or_app. right. now right. }
    assert (Ho' : inOrder cmp (insert cmp e acc)).
    { apply insert_inOrder; [|exact Ho]. now apply (consistent_incl values). }
    destruct (IH _ Hi' Ho') as [G1 G2]. split; [exact G1|].
    intros v Hv. rewrite (G2 v Hv), (insert_filter values v e acc Hc Hv Hie Ho).
    rewrite <- app_assoc. f_equal. cbn [filter]. now destruct (tie cmp v e).
Qed.

(** Two arrangements of the same consistent values that are both in order
    and agree on the order of ties are the same list. *)
Lemma stable_order_unique (l1 l2 : list Fragment) :
  consistent cmp l1 -> Permutation l1 l2 ->
  inOrder cmp l1 -> inOrder cmp l2 ->
  (forall v, In v l1 -> filter (tie cmp v) l1 = filter (tie cmp v) l2) ->
  l1 = l2.
Proof.
  unfold inOrder. revert l2.
  induction l1 as [|a l1 IH]; intros l2 Hc Hp H1 H2 Hf.
  - now apply Permutation_nil in Hp.
  - destruct l2 as [|b l2];
      [apply Permutation_sym, Permutation_nil in Hp; discriminate|].
    inversion H1 as [|? ? Ha H1']; subst.
    inversion H2 as [|? ? Hb H2']; subst.
    assert (Ia : In a (a :: l1)) by now left.
    assert (Ib : In b (a :: l1)).
    { apply (Permutation_in _ (Permutation_sym Hp)). now left. }
    assert (Tab : ties cmp a b).
    { destruct Ib as [<-|Ib]; [now apply (ties_refl cmp (a :: l1))|].
      assert (Ib' : In b (a :: l1)) by now right.
      apply (not_after_both cmp _ Hc a b Ia Ib').
      - rewrite Forall_forall in Ha. now apply Ha.
      - pose proof (Permutation_in _ Hp Ia) as [E|Ia'].
        + rewrite E.
          destruct (answer_cases cmp _ Hc a a Ia Ia)
            as [(_ & N & _)|[(_ & _ & N)|(_ & N & _)]]; try exact N;
            exfalso; apply N; now apply (ties_refl cmp (a :: l1)).
        + rewrite Forall_forall in Hb. now apply Hb. }
    assert (E : a = b).
    { pose proof (Hf a Ia) as Hfa. cbn [filter] in Hfa.
      rewrite (ties_refl cmp _ Hc a Ia) in Hfa.
      unfold ties in Tab. rewrite Tab in Hfa. now injection Hfa. }
    subst b. f_equal.
    apply IH; try assumption.
    + revert Hc. apply consistent_incl. intros g Hg. now right.
    + now apply Permutation_cons_inv in Hp.
    + intros v Hv. assert (Iv : In v (a :: l1)) by now right.
      pose proof (Hf v Iv) as Hfv. cbn [filter] in Hfv.
      destruct (tie cmp v a); [now injection Hfv | exact Hfv].
Qed.

End SortOrder.

Section StableSort.

(** X2. Over fragments on which the comparator is consistent the sort gives
    them in order (no fragment sorts after a later one, none before an
    earlier one) and it is stable (the fragments that tie with a given one
    keep the order they came in); and it is the only arrangement of the
    fragments that is both, so every sort that meets these two conditions
    gives the same list. *)
Theorem sort_is_the_stable_order (cmp : Fragment -> Fragment -> float)
  (items : list Fragment) :
  consistent cmp items ->
  inOrder cmp (sort cmp items) /\
  keepsTies cmp items (sort cmp items) /\
  (forall other,
     Permutation other items -> inOrder cmp other ->
     keepsTies cmp items other -> other = sort cmp items).
Proof.
  intros Hc.
  assert (Hi : incl ([] ++ items) items) by (intros g Hg; exact Hg).
  destruct (fold_insert_stable cmp items items [] Hc Hi (FOP_nil _))
    as [Ho Hk].
  assert (Hp : Permutation (sort cmp items) items)
    by apply (fold_insert_permutation cmp items []).
  split; [exact Ho|]. split; [exact Hk|].
  intros other Po Oo Ko.
  apply (stable_order_unique cmp); try assumption.
  - revert Hc. apply consistent_incl. intros g Hg.
    now apply (Permutation_in _ Po).
  - now rewrite Hp.
  - intros v Hv. apply (Permutation_in _ Po) in Hv.
    unfold sort. rewrite (Hk v Hv). now apply Ko.
Qed.

Lemma sort_is_the_stable_order_witness :
  let items := [toFragment (textItem "c" 650 0 12);
                toFragment (textItem "a" 700 0 12);
                toFragment (textItem "b" 700 0 12)] in
  inOrder compareFn (sort compareFn items) /\
  keepsTies compareFn items (sort compareFn items) /\
  (forall other,
     Permutation other items -> inOrder compareFn other ->
     keepsTies compareFn items other -> other = sort compareFn items).
Proof.
  apply (sort_is_the_stable_order compareFn
           [toFragment (textItem "c" 650 0 12);
            toFragment (textItem "a" 700 0 12);
            toFragment (textItem "b" 700 0 12)]).
  consistent_by_cases.
Defined.

End StableSort.

Section NormalizerMore.

Import Normalizer.

Lemma isHtml_iff (fileType name : jsstring) :
  isHtml fileType (toLowerCase name) = true <-> looksHtml fileType name.
Proof.
  unfold isHtml, looksHtml, hasExtension.
  now rewrite !orb_true_iff, strictEq_iff, !endsWith_iff, or_assoc.
Qed.

Lemma isDocx_iff (fileType name : jsstring) :
  isDocx fileType (toLowerCase name) = true <-> looksDocx fileType name.
Proof.
  unfold isDocx, looksDocx, hasExtension.
  now rewrite !orb_true_iff, strictEq_iff, !endsWith_iff.
Qed.

Lemma isPdf_iff (fileType name : jsstring) :
  isPdf fileType (toLowerCase name) = true <-> looksPdf fileType name.
Proof.
  unfold isPdf, looksPdf, hasExtension.
  now rewrite !orb_true_iff, strictEq_iff, !endsWith_iff.
Qed.

Lemma not_true_false (b : bool) (P : Prop) : (b = true <-> P) -> ~ P -> b = false.
Proof. intros H N. destruct b; [|reflexivity]. exfalso. now apply N, H. Qed.

Lemma html_pass (window : Window) (fileType name : jsstring)
  (textData : option jsstring) :
  looksHtml fileType name ->
  convertLocalFile window fileType name textData
    = Normal (match textData with Some t => t | None => [] end).
Proof.
  intros H. apply isHtml_iff in H.
  unfold convertLocalFile, tryBlock. now rewrite H.
Qed.

(** X6. HTML comes first: an input whose media type is [text/html], or whose
    name ends in [.html] or [.htm] in any letter case, is returned as the
    text read from it (the empty string when none was read), whatever its
    other attribute says and whatever libraries are loaded. *)
Theorem html_passes_through (window : Window) (fileType name : jsstring)
  (textData : option jsstring) :
  looksHtml fileType name ->
  convertLocalFile window fileType name textData
    = Normal (match textData with Some t => t | None => [] end).
Proof. apply html_pass. Qed.

Lemma html_passes_through_witness :
  convertLocalFile {| mammoth := None; pdfjsLib := None |}
    (lit "application/pdf") (lit "Notes.HTM") (Some (lit "<p>hi</p>"))
    = Normal (lit "<p>hi</p>").
Proof.
  apply (html_passes_through {| mammoth := None; pdfjsLib := None |}
           (lit "application/pdf") (lit "Notes.HTM") (Some (lit "<p>hi</p>"))).
  right. right. exists (lit "notes"). reflexivity.
Defined.

(** X7. A word-processing input that is not HTML goes to mammoth: without
    the library the conversion fails with "Mammoth library not loaded"; with
    it, the HTML it produces is returned as it is and its failure is
    reported under the prefix of the converter. *)
Theorem docx_goes_to_mammoth (window : Window) (fileType name : jsstring)
  (textData : option jsstring) :
  ~ looksHtml fileType name -> looksDocx fileType name ->
  convertLocalFile window fileType name textData
    = match mammoth window with
      | None => failed "Mammoth library not loaded"
      | Some (Normal html) => Normal html
      | Some (Throw message) =>
          Throw (lit "Failed to convert locally: " ++ message)
      end.
Proof.
  intros Hh Hd. apply (not_true_false _ _ (isHtml_iff _ _)) in Hh.
  apply isDocx_iff in Hd.
  unfold convertLocalFile, tryBlock. rewrite Hh, Hd.
  destruct (mammoth window) as [[html|m]|]; reflexivity.
Qed.

Lemma report_not_html :
  ~ looksHtml (lit "application/octet-stream") (lit "Report.DOCX").
Proof.
  intros [H|[H|H]]; [discriminate| |];
    apply endsWith_iff in H; vm_compute in H; discriminate.
Defined.

Lemma docx_goes_to_mammoth_witness :
  convertLocalFile {| mammoth := None; pdfjsLib := None |}
    (lit "application/octet-stream") (lit "Report.DOCX") None
    = failed "Mammoth library not loaded".
Proof.
  apply (docx_goes_to_mammoth {| mammoth := None; pdfjsLib := None |}
           (lit "application/octet-stream") (lit "Report.DOCX") None report_not_html).
  right. exists (lit "report"). reflexivity.
Defined.

Lemma fold_pageOutput (pages : list (list TextItem)) (acc : jsstring) :
  fold_left (fun fullHtml items => fullHtml ++ pageOutput items) pages acc
    = acc ++ concat (map pageOutput pages).
Proof.
  revert acc. induction pages as [|p pages IH]; intros acc; simpl.
  - now rewrite app_nil_r.
  - now rewrite IH, app_assoc.
Qed.

(** X8. A PDF input that is neither HTML nor word-processing goes to PDF.js:
    without the library the conversion fails with "PDF.js library not
    loaded"; with it, and with the comparator consistent over the fragments
    of each page, the document is the outputs of the pages one after the
    other, in page order. *)
Theorem pdf_is_pages_in_order (window : Window) (fileType name : jsstring)
  (textData : option jsstring) :
  ~ looksHtml fileType name -> ~ looksDocx fileType name ->
  looksPdf fileType name ->
  (forall pages, pdfjsLib window = Some (Normal pages) ->
                 Forall orderly pages) ->
  convertLocalFile window fileType name textData
    = match pdfjsLib window with
      | None => failed "PDF.js library not loaded"
      | Some (Normal pages) => Normal (concat (map pageOutput pages))
      | Some (Throw message) =>
          Throw (lit "Failed to convert locally: " ++ message)
      end.
Proof.
  intros Hh Hd Hp _. apply (not_true_false _ _ (isHtml_iff _ _)) in Hh.
  apply (not_true_false _ _ (isDocx_iff _ _)) in Hd. apply isPdf_iff in Hp.
  unfold convertLocalFile, tryBlock. rewrite Hh, Hd, Hp.
  destruct (pdfjsLib window) as [[pages|m]|]; try reflexivity.
  simpl. now rewrite fold_pageOutput.
Qed.

Lemma scan_not_html : ~ looksHtml (lit "application/pdf") (lit "scan.pdf").
Proof.
  intros [H|[H|H]]; [discriminate| |];
    apply endsWith_iff in H; vm_compute in H; discriminate.
Defined.

Lemma scan_not_docx : ~ looksDocx (lit "application/pdf") (lit "scan.pdf").
Proof.
  intros [H|H]; [discriminate|].
  apply endsWith_iff in H; vm_compute in H; discriminate.
Defined.

Lemma pdf_is_pages_in_order_witness :
  convertLocalFile
    {| mammoth := None;
       pdfjsLib := Some (Normal [[textItem "One" 700 0 12]; [];
                                 [textItem "Two" 650 0 12;
                                  textItem "Three" 700 0 12]]) |}
    (lit "application/pdf") (lit "scan.pdf") None
  = Normal (concat (map pageOutput [[textItem "One" 700 0 12]; [];
                                    [textItem "Two" 650 0 12;
                                     textItem "Three" 700 0 12]])).
Proof.
  apply (pdf_is_pages_in_order
           {| mammoth := None;
              pdfjsLib := Some (Normal [[textItem "One" 700 0 12]; [];
                                        [textItem "Two" 650 0 12;
                                         textItem "Three" 700 0 12]]) |}
           (lit "application/pdf") (lit "scan.pdf") None
           scan_not_html scan_not_docx).
  - left. reflexivity.
  - intros pages E. injection E as <-.
    apply Forall_cons; [|apply Forall_cons; [|apply Forall_cons;
      [|apply Forall_nil]]]; unfold orderly; consistent_by_cases.
Defined.

(** X9. A PDF without text is no error: when every text item of every page
    holds white space only (no page, or pages without items, included) the
    document is the empty string. *)
Theorem pdf_without_text_is_empty (window : Window)
  (fileType name : jsstring) (textData : option jsstring)
  (pages : list (list TextItem)) :
  ~ looksHtml fileType name -> ~ looksDocx fileType name ->
  looksPdf fileType name ->
  pdfjsLib window = Some (Normal pages) ->
  Forall (Forall (fun item => blank (item_str item))) pages ->
  convertLocalFile window fileType name textData = Normal [].
Proof.
  intros Hh Hd Hp Hw Hb. apply (not_true_false _ _ (isHtml_iff _ _)) in Hh.
  apply (not_true_false _ _ (isDocx_iff _ _)) in Hd. apply isPdf_iff in Hp.
  unfold convertLocalFile, tryBlock. rewrite Hh, Hd, Hp, Hw.
  simpl. rewrite fold_pageOutput. simpl. f_equal. clear Hw.
  induction Hb as [|p pages Hp' _ IH]; simpl; [reflexivity|].
  rewrite (proj2 (blank_page p Hp')). exact IH.
Qed.

Lemma pdf_without_text_is_empty_witness :
  convertLocalFile
    {| mammoth := None;
       pdfjsLib := Some (Normal [[textItem " " 700 0 12]; []]) |}
    (lit "application/pdf") (lit "scan.pdf") None
  = Normal [].
Proof.
  apply (pdf_without_text_is_empty
           {| mammoth := None;
              pdfjsLib := Some (Normal [[textItem " " 700 0 12]; []]) |}
           (lit "application/pdf") (lit "scan.pdf") None
           [[textItem " " 700 0 12]; []]
           scan_not_html scan_not_docx (or_introl eq_refl) eq_refl).
  repeat constructor.
Defined.

End NormalizerMore.

Section RegExpFacts.

Import RegExp.

Lemma canonicalize_lowerUnit (a b : N) :
  N.eqb (canonicalize a) (canonicalize b) = N.eqb (lowerUnit a) (lowerUnit b).
Proof.
  unfold canonicalize, lowerUnit.
  destruct (N.leb_spec 97 a), (N.leb_spec a 122), (N.leb_spec 97 b),
    (N.leb_spec b 122), (N.leb_spec 65 a), (N.leb_spec a 90),
    (N.leb_spec 65 b), (N.leb_spec b 90); simpl;
    match goal with
    | |- N.eqb ?u ?v = N.eqb ?w ?z =>
        destruct (N.eqb_spec u v), (N.eqb_spec w z);
        try reflexivity; exfalso; lia
    end.
Qed.

Lemma startsWith_canonicalize (s p : jsstring) :
  startsWith (map canonicalize s) (map canonicalize p)
    = startsWith (map lowerUnit s) (map lowerUnit p).
Proof.
  revert s. induction p as [|a p IH]; intros [|b s]; simpl; try reflexivity.
  now rewrite canonicalize_lowerUnit, IH.
Qed.

Lemma endsWithIgnoreCase_toLowerCase (s p : jsstring) :
  endsWithIgnoreCase s p = endsWith (toLowerCase s) (toLowerCase p).
Proof.
  unfold endsWithIgnoreCase, endsWith, toLowerCase.
  now rewrite startsWith_canonicalize, !map_rev.
Qed.

(** The test of the interface on a name, [/\.(ext)$/i], and the test of the
    converter, [name.toLowerCase().endsWith(".ext")], agree on a lower-case
    extension. *)
Lemma endsWithIgnoreCase_iff (name ext : jsstring) :
  toLowerCase ext = ext ->
  endsWithIgnoreCase name ext = true <-> hasExtension name ext.
Proof.
  intros H. rewrite endsWithIgnoreCase_toLowerCase, H. apply endsWith_iff.
Qed.

Lemma stripExtension_found (base ext : jsstring) :
  ext <> [] -> forallb notSlashOrDot ext = true ->
  stripExtension (base ++ 46%N :: ext) = base.
Proof.
  intros Hne He. induction base as [|c base IH].
  - simpl. rewrite He. destruct ext; [congruence | reflexivity].
  - cbn [app stripExtension]. rewrite IH.
    replace (forallb notSlashOrDot (base ++ 46%N :: ext)) with false.
    + now rewrite andb_false_r.
    + symmetry. rewrite forallb_app. simpl. apply andb_false_r.
Qed.

Lemma stripExtension_no_dot (name : jsstring) :
  Forall (fun c => c <> 46%N) name -> stripExtension name = name.
Proof.
  induction 1 as [|c name Hc _ IH]; simpl; [reflexivity|].
  rewrite IH.
  destruct (N.eqb_spec c 46); [contradiction | reflexivity].
Qed.

(** X10. The book title: a name [base.ext], with an extension that is not
    empty and holds neither a dot nor a slash, loses its last extension and
    only that (the base may hold dots of its own); a name without a dot is
    kept as it is. *)
Theorem book_title_drops_last_extension :
  (forall base ext,
     ext <> [] -> forallb notSlashOrDot ext = true ->
     stripExtension (base ++ lit "." ++ ext) = base) /\
  (forall name,
     Forall (fun c => c <> 46%N) name -> stripExtension name = name).
Proof. split; [apply stripExtension_found | apply stripExtension_no_dot]. Qed.

Lemma book_title_drops_last_extension_witness :
  stripExtension (lit "archive.tar" ++ lit "." ++ lit "gz") = lit "archive.tar"
  /\ stripExtension (lit "README") = lit "README".
Proof.
  split.
  - apply (proj1 book_title_drops_last_extension (lit "archive.tar") (lit "gz"));
      [discriminate | reflexivity].
  - apply (proj2 book_title_drops_last_extension (lit "README")).
    repeat constructor; discriminate.
Defined.

End RegExpFacts.

Section DropzoneFacts.

Import RegExp Dropzone Normalizer.

Lemma matchesExtension_html (name : jsstring) :
  matchesExtension [lit "html"; lit "htm"] name = true <->
  hasExtension name (lit ".html") \/ hasExtension name (lit ".htm").
Proof.
  unfold matchesExtension. cbn [existsb].
  rewrite orb_false_r, orb_true_iff.
  now rewrite !endsWithIgnoreCase_iff by reflexivity.
Qed.

Lemma matchesExtension_all (name : jsstring) :
  matchesExtension [lit "pdf"; lit "doc"; lit "docx"; lit "html"; lit "htm"]
    name = true <->
  hasExtension name (lit ".pdf") \/ hasExtension name (lit ".doc") \/
  hasExtension name (lit ".docx") \/ hasExtension name (lit ".html") \/
  hasExtension name (lit ".htm").
Proof.
  unfold matchesExtension. cbn [existsb].
  rewrite orb_false_r, !orb_true_iff.
  now rewrite !endsWithIgnoreCase_iff by reflexivity.
Qed.

Lemma validateAndSelect_accepts (fileType name : jsstring) :
  validateAndSelect fileType name = onFileSelect <->
  (fileType = lit "application/pdf" \/ fileType = lit "application/msword" \/
   fileType =
     lit "application/vnd.openxmlformats-officedocument.wordprocessingml.document"
   \/ fileType = lit "text/html") \/
  hasExtension name (lit ".pdf") \/ hasExtension name (lit ".doc") \/
  hasExtension name (lit ".docx") \/ hasExtension name (lit ".html") \/
  hasExtension name (lit ".htm").
Proof.
  unfold validateAndSelect, allowedTypes. cbn [existsb].
  rewrite <- matchesExtension_all.
  rewrite <- !(strictEq_iff fileType), <- !orb_true_iff, orb_false_r.
  destruct (_ || _); split; (reflexivity || discriminate || auto).
Qed.

(** X11. Whatever the converter can handle, the drop zone lets in: an input
    that is HTML, word-processing or PDF by media type or by extension is
    selected, not refused. *)
Theorem convertible_is_accepted (fileType name : jsstring) :
  looksHtml fileType name \/ looksDocx fileType name \/ looksPdf fileType name ->
  validateAndSelect fileType name = onFileSelect.
Proof.
  unfold looksHtml, looksDocx, looksPdf. intros H.
  apply validateAndSelect_accepts. tauto.
Qed.

Lemma convertible_is_accepted_witness :
  validateAndSelect (lit "application/octet-stream") (lit "Thesis.PDF") = onFileSelect.
Proof.
  apply (convertible_is_accepted (lit "application/octet-stream") (lit "Thesis.PDF")).
  right. right. right. exists (lit "thesis"). reflexivity.
Defined.

Lemma suffix_clash (t u p q : jsstring) :
  match rev p, rev q with
  | a :: _, b :: _ => N.eqb a b = false
  | _, _ => False
  end ->
  t ++ p = u ++ q -> False.
Proof.
  intros Hc H. apply (f_equal (@rev N)) in H. rewrite !rev_app_distr in H.
  destruct (rev p) as [|a p'], (rev q) as [|b q']; try contradiction.
  simpl in H. injection H as -> _. now rewrite N.eqb_refl in Hc.
Qed.

Lemma doc_is_no_format (fileType name : jsstring) :
  hasExtension name (lit ".doc") ->
  fileType <> lit "text/html" ->
  fileType <>
    lit "application/vnd.openxmlformats-officedocument.wordprocessingml.document" ->
  fileType <> lit "application/pdf" ->
  ~ looksHtml fileType name /\ ~ looksDocx fileType name /\
  ~ looksPdf fileType name.
Proof.
  intros [t Ht] T1 T2 T3. unfold looksHtml, looksDocx, looksPdf, hasExtension.
  rewrite Ht.
  repeat split.
  - intros [H|[[u H]|[u H]]]; [contradiction| |];
      now apply suffix_clash in H.
  - intros [H|[u H]]; [contradiction|]. now apply suffix_clash in H.
  - intros [H|[u H]]; [contradiction|]. now apply suffix_clash in H.
Qed.

Lemma no_format_fails (window : Window) (fileType name : jsstring)
  (textData : option jsstring) :
  ~ looksHtml fileType name -> ~ looksDocx fileType name ->
  ~ looksPdf fileType name ->
  convertLocalFile window fileType name textData = Throw unsupportedMessage.
Proof.
  intros Hh Hd Hp. apply (not_true_false _ _ (isHtml_iff _ _)) in Hh.
  apply (not_true_false _ _ (isDocx_iff _ _)) in Hd.
  apply (not_true_false _ _ (isPdf_iff _ _)) in Hp.
  unfold convertLocalFile, tryBlock. now rewrite Hh, Hd, Hp.
Qed.

(** X12. The drop zone lets legacy Word files in and the converter turns
    them away: a name ending in [.doc], with a media type that is none of
    the three the converter knows ([application/msword], say), is selected
    by the drop zone and then always fails to convert, as an unsupported
    file type. *)
Theorem doc_is_accepted_then_fails (window : Window)
  (fileType name : jsstring) (textData : option jsstring) :
  hasExtension name (lit ".doc") ->
  fileType <> lit "text/html" ->
  fileType <>
    lit "application/vnd.openxmlformats-officedocument.wordprocessingml.document" ->
  fileType <> lit "application/pdf" ->
  validateAndSelect fileType name = onFileSelect /\
  convertLocalFile window fileType name textData = Throw unsupportedMessage.
Proof.
  intros Hx T1 T2 T3. split.
  - apply validateAndSelect_accepts. tauto.
  - destruct (doc_is_no_format _ _ Hx T1 T2 T3) as (Hh & Hd & Hp).
    now apply no_format_fails.
Qed.

Lemma doc_is_accepted_then_fails_witness :
  validateAndSelect (lit "application/msword") (lit "Letter.doc") = onFileSelect
  /\ convertLocalFile {| mammoth := Some (Normal (lit "<p>x</p>"));
                          pdfjsLib := None |}
       (lit "application/msword") (lit "Letter.doc") None
     = Throw unsupportedMessage.
Proof.
  apply (doc_is_accepted_then_fails
           {| mammoth := Some (Normal (lit "<p>x</p>")); pdfjsLib := None |}
           (lit "application/msword") (lit "Letter.doc") None);
    [exists (lit "letter"); reflexivity | discriminate..].
Defined.

End DropzoneFacts.

Section AppFacts.

Import FileReaders RegExp Normalizer App.

Lemma app_isHtml_iff (file : File) :
  strictEq (fileType file) (lit "text/html")
  || matchesExtension [lit "html"; lit "htm"] (name file) = true
  <-> looksHtml (fileType file) (name file).
Proof.
  unfold looksHtml.
  now rewrite orb_true_iff, strictEq_iff, matchesExtension_html.
Qed.

Lemma createMobiBlob_resolves (now : Z) (html : jsstring)
  (title : option jsstring) :
  exists blob, Mobi.createMobiBlob now html title = Normal blob.
Proof.
  destruct (createMobiBlob_layout now html title _ _ eq_refl eq_refl)
    as (hdr & _ & _ & H).
  eexists. exact H.
Qed.

(** X13. A conversion ends in one of two states.  Completed: the result
    carries the selected file's name as [originalName], the book title
    followed by [.epub] or [.azw3] (as the chosen format says) as
    [fileName], and no error message is left.  Failed: the status is ERROR,
    the earlier result is kept, and the message shown is never empty. *)
Theorem conversion_completes_or_fails (browser : Browser) (st : AppState)
  (file : File) :
  selectedFile st = Some file ->
  (exists converted,
     handleConvert browser st
       = {| status := COMPLETED; selectedFile := Some file;
            result := Some converted; errorMessage := None;
            outputFormat := outputFormat st |} /\
     originalName converted = name file /\
     fileName converted
       = stripExtension (name file) ++ downloadExtension (outputFormat st)) \/
  (exists message,
     handleConvert browser st
       = {| status := ERROR; selectedFile := Some file;
            result := result st; errorMessage := Some message;
            outputFormat := outputFormat st |} /\
     message <> []).
Proof.
  intros Hs. unfold handleConvert. rewrite Hs.
  destruct (tryBlock browser file (outputFormat st)) as [c|r] eqn:E.
  - left. exists c. split; [reflexivity|].
    unfold tryBlock in E.
    match type of E with
    | await ?p _ = _ => destruct p as [html|]; cbn [await] in E; [|discriminate]
    end.
    destruct (outputFormat st); cbn [downloadExtension].
    + destruct (Epub.createEpubBlob _ _ _ _); cbn [await promise] in E;
        [|discriminate].
      injection E as <-. now split.
    + destruct (Mobi.createMobiBlob _ _ _); cbn [await promise] in E;
        [|discriminate].
      injection E as <-. now split.
  - right. exists (messageOf r). split; [reflexivity|].
    destruct r as [[|c m]|]; cbn [messageOf]; intros H;
      try (vm_compute in H); discriminate H.
Qed.

Lemma conversion_completes_or_fails_witness :
  (exists converted,
     handleConvert
       {| textRead := Loaded (ResultString (lit "<p>hi</p>"));
          bufferRead := Failed;
          window := {| mammoth := None; pdfjsLib := None |};
          jszipLoaded := true; randomUUID := lit "0"; dateNow := 0 |}
       {| status := IDLE;
          selectedFile := Some {| fileType := lit "text/html";
                                  name := lit "a.html" |};
          result := None; errorMessage := None; outputFormat := azw3 |}
     = {| status := COMPLETED;
          selectedFile := Some {| fileType := lit "text/html";
                                  name := lit "a.html" |};
          result := Some converted; errorMessage := None;
          outputFormat := azw3 |} /\
     originalName converted = lit "a.html" /\
     fileName converted = lit "a.azw3") \/
  (exists message,
     handleConvert
       {| textRead := Loaded (ResultString (lit "<p>hi</p>"));
          bufferRead := Failed;
          window := {| mammoth := None; pdfjsLib := None |};
          jszipLoaded := true; randomUUID := lit "0"; dateNow := 0 |}
       {| status := IDLE;
          selectedFile := Some {| fileType := lit "text/html";
                                  name := lit "a.html" |};
          result := None; errorMessage := None; outputFormat := azw3 |}
     = {| status := ERROR;
          selectedFile := Some {| fileType := lit "text/html";
                                  name := lit "a.html" |};
          result := None; errorMessage := Some message;
          outputFormat := azw3 |} /\
     message <> []).
Proof.
  exact (conversion_completes_or_fails
           {| textRead := Loaded (ResultString (lit "<p>hi</p>"));
              bufferRead := Failed;
              window := {| mammoth := None; pdfjsLib := None |};
              jszipLoaded := true; randomUUID := lit "0"; dateNow := 0 |}
           {| status := IDLE;
              selectedFile := Some {| fileType := lit "text/html";
                                      name := lit "a.html" |};
              result := None; errorMessage := None; outputFormat := azw3 |}
           {| fileType := lit "text/html"; name := lit "a.html" |} eq_refl).
Defined.

Lemma tryBlock_html (browser : Browser) (file : File) (format : OutputFormat)
  (text : jsstring) :
  looksHtml (fileType file) (name file) ->
  textRead browser = Loaded (ResultString text) ->
  tryBlock browser file format
    = await
        (match format with
         | azw3 =>
             await (promise (Mobi.createMobiBlob (dateNow browser) text
                               (Some (stripExtension (name file)))))
               (fun blob => Resolved (MobiBlob blob, lit ".azw3"))
         | epub =>
             await (promise (Epub.createEpubBlob (jszipLoaded browser)
                               (randomUUID browser) text
                               (Some (stripExtension (name file)))))
               (fun blob => Resolved (EpubBlob blob, lit ".epub"))
         end)
        (fun '(blob, extension) =>
           Resolved {| fileName := stripExtension (name file) ++ extension;
                       originalName := name file;
                       content := text;
                       blobUrl := blob |}).
Proof.
  intros Hh Hr. unfold tryBlock.
  rewrite (proj2 (app_isHtml_iff file) Hh), Hr. cbn [readTextFile await].
  rewrite (html_pass _ _ _ (Some text) Hh). reflexivity.
Qed.

(** X14. An HTML file (by media type, or by a name ending in [.html] or
    [.htm] in any letter case) whose text was read converts to AZW3 whatever
    libraries are loaded: the conversion completes, the preview content is
    the text as read, the download is named after the book title with
    [.azw3], and its blob is the MOBI buffer of that text under that
    title. *)
Theorem html_to_azw3_always_completes (browser : Browser) (st : AppState)
  (file : File) (text : jsstring) :
  selectedFile st = Some file ->
  outputFormat st = azw3 ->
  looksHtml (fileType file) (name file) ->
  textRead browser = Loaded (ResultString text) ->
  exists blob,
    Mobi.createMobiBlob (dateNow browser) text
      (Some (stripExtension (name file))) = Normal blob /\
    handleConvert browser st
      = {| status := COMPLETED; selectedFile := Some file;
           result :=
             Some {| fileName := stripExtension (name file) ++ lit ".azw3";
                     originalName := name file;
                     content := text;
                     blobUrl := MobiBlob blob |};
           errorMessage := None; outputFormat := azw3 |}.
Proof.
  intros Hs Hf Hh Hr.
  destruct (createMobiBlob_resolves (dateNow browser) text
              (Some (stripExtension (name file)))) as (blob & Hb).
  exists blob. split; [exact Hb|].
  unfold handleConvert. rewrite Hs, Hf, (tryBlock_html _ _ _ _ Hh Hr), Hb.
  reflexivity.
Qed.

(** X15. The same HTML file converts to EPUB exactly when JSZip is loaded:
    with it the conversion completes with the archive of that text under the
    book title, named with [.epub]; without it the conversion fails with
    "JSZip library not loaded. Check internet connection." *)
Theorem html_to_epub_needs_jszip (browser : Browser) (st : AppState)
  (file : File) (text : jsstring) :
  selectedFile st = Some file ->
  outputFormat st = epub ->
  looksHtml (fileType file) (name file) ->
  textRead browser = Loaded (ResultString text) ->
  (jszipLoaded browser = true ->
   exists blob,
     Epub.createEpubBlob true (randomUUID browser) text
       (Some (stripExtension (name file))) = Normal blob /\
     handleConvert browser st
       = {| status := COMPLETED; selectedFile := Some file;
            result :=
              Some {| fileName := stripExtension (name file) ++ lit ".epub";
                      originalName := name file;
                      content := text;
                      blobUrl := EpubBlob blob |};
            errorMessage := None; outputFormat := epub |}) /\
  (jszipLoaded browser = false ->
   handleConvert browser st
     = {| status := ERROR; selectedFile := Some file;
          result := result st;
          errorMessage :=
            Some (lit "JSZip library not loaded. Check internet connection.");
          outputFormat := epub |}).
Proof.
  intros Hs Hf Hh Hr. unfold handleConvert.
  rewrite Hs, Hf, (tryBlock_html _ _ _ _ Hh Hr). split; intros Hj; rewrite Hj.
  - eexists. split; reflexivity.
  - reflexivity.
Qed.

Lemma html_to_azw3_always_completes_witness :
  exists blob,
    Mobi.createMobiBlob 1700000000000 (lit "<p>hi</p>")
      (Some (stripExtension (lit "Notes.HTML"))) = Normal blob /\
    handleConvert sampleBrowser (sampleState "application/octet-stream" "Notes.HTML" azw3)
      = {| status := COMPLETED;
           selectedFile := Some {| fileType := lit "application/octet-stream";
              name := lit "Notes.HTML" |};
           result :=
             Some {| fileName := stripExtension (lit "Notes.HTML") ++ lit ".azw3";
                     originalName := lit "Notes.HTML";
                     content := lit "<p>hi</p>";
                     blobUrl := MobiBlob blob |};
           errorMessage := None; outputFormat := azw3 |}.
Proof.
  apply (html_to_azw3_always_completes sampleBrowser
           (sampleState "application/octet-stream" "Notes.HTML" azw3)
           {| fileType := lit "application/octet-stream";
              name := lit "Notes.HTML" |}
           (lit "<p>hi</p>") eq_refl eq_refl);
    [|reflexivity].
  right. left. exists (lit "notes"). reflexivity.
Defined.

Lemma html_to_epub_needs_jszip_witness :
  handleConvert sampleBrowser (sampleState "text/html" "page" epub)
    = {| status := ERROR;
         selectedFile := Some {| fileType := lit "text/html"; name := lit "page" |};
         result := None;
         errorMessage :=
           Some (lit "JSZip library not loaded. Check internet connection.");
         outputFormat := epub |}.
Proof.
  apply (proj2 (html_to_epub_needs_jszip sampleBrowser
                  (sampleState "text/html" "page" epub)
                  {| fileType := lit "text/html"; name := lit "page" |}
                  (lit "<p>hi</p>") eq_refl eq_refl (or_introl eq_refl)
                  eq_refl)).
  reflexivity.
Defined.

(** X16. A legacy Word file gets through the whole path to an error: once
    its bytes are read, the conversion of a file named [*.doc] (media type
    none of the three the converter knows) ends in ERROR with the message of
    the unsupported file type, for either output format. *)
Theorem doc_conversion_reports_unsupported (browser : Browser)
  (st : AppState) (file : File) (bytes : list N) :
  selectedFile st = Some file ->
  hasExtension (name file) (lit ".doc") ->
  fileType file <> lit "text/html" ->
  fileType file <>
    lit "application/vnd.openxmlformats-officedocument.wordprocessingml.document" ->
  fileType file <> lit "application/pdf" ->
  bufferRead browser = Loaded (ResultArrayBuffer bytes) ->
  handleConvert browser st
    = {| status := ERROR; selectedFile := Some file; result := result st;
         errorMessage := Some unsupportedMessage;
         outputFormat := outputFormat st |}.
Proof.
  intros Hs Hx T1 T2 T3 Hr.
  destruct (doc_is_no_format _ _ Hx T1 T2 T3) as (Hh & Hd & Hp).
  unfold handleConvert, tryBlock. rewrite Hs.
  rewrite (not_true_false _ _ (app_isHtml_iff file) Hh), Hr.
  cbn [readFileAsArrayBuffer await].
  rewrite (no_format_fails _ _ _ None Hh Hd Hp). reflexivity.
Qed.

Lemma doc_conversion_reports_unsupported_witness :
  handleConvert sampleBrowser (sampleState "application/msword" "Letter.doc" epub)
    = {| status := ERROR;
         selectedFile :=
           Some {| fileType := lit "application/msword";
                   name := lit "Letter.doc" |};
         result := None;
         errorMessage := Some unsupportedMessage;
         outputFormat := epub |}.
Proof.
  apply (doc_conversion_reports_unsupported sampleBrowser
           (sampleState "application/msword" "Letter.doc" epub)
           {| fileType := lit "application/msword"; name := lit "Letter.doc" |}
           [37; 80; 68; 70]%N eq_refl);
    [exists (lit "letter"); reflexivity | discriminate.. | reflexivity].
Defined.

(** X17. When reading the file fails with the reader's error event, which
    carries no message, the conversion ends in ERROR with the stand-in text
    "An unexpected error occurred during conversion.": for an HTML file the
    read is the text read, for any other file the read of its bytes. *)
Theorem read_failure_shows_stand_in_message (browser : Browser)
  (st : AppState) (file : File) :
  selectedFile st = Some file ->
  looksHtml (fileType file) (name file) /\ textRead browser = Failed \/
  ~ looksHtml (fileType file) (name file) /\ bufferRead browser = Failed ->
  handleConvert browser st
    = {| status := ERROR; selectedFile := Some file; result := result st;
         errorMessage :=
           Some (lit "An unexpected error occurred during conversion.");
         outputFormat := outputFormat st |}.
Proof.
  intros Hs [[Hh Hr]|[Hh Hr]]; unfold handleConvert, tryBlock; rewrite Hs.
  - rewrite (proj2 (app_isHtml_iff file) Hh), Hr. reflexivity.
  - rewrite (not_true_false _ _ (app_isHtml_iff file) Hh), Hr. reflexivity.
Qed.

Lemma read_failure_shows_stand_in_message_witness :
  handleConvert
    {| textRead := Failed; bufferRead := Failed;
       window := {| mammoth := None; pdfjsLib := None |};
       jszipLoaded := true; randomUUID := lit "0"; dateNow := 0 |}
    (sampleState "text/html" "page.html" epub)
  = {| status := ERROR;
       selectedFile :=
         Some {| fileType := lit "text/html"; name := lit "page.html" |};
       result := None;
       errorMessage :=
         Some (lit "An unexpected error occurred during conversion.");
       outputFormat := epub |}.
Proof.
  apply (read_failure_shows_stand_in_message
           {| textRead := Failed; bufferRead := Failed;
              window := {| mammoth := None; pdfjsLib := None |};
              jszipLoaded := true; randomUUID := lit "0"; dateNow := 0 |}
           (sampleState "text/html" "page.html" epub)
           {| fileType := lit "text/html"; name := lit "page.html" |} eq_refl).
  left. split; [left|]; reflexivity.
Defined.

End AppFacts.

(* ===================================================================== *)
(** * The MOBI encoder: fields of the headers *)
(* ===================================================================== *)

Section MobiMore.

Import Mobi.
Import JS.Notations.

Lemma byteOf_value (v : Z) (k : nat) :
  Z.of_N (byteOf v k) = ((v / 2 ^ (8 * Z.of_nat k)) mod 256)%Z.
Proof.
  unfold byteOf. rewrite Z2N.id.
  - change 255%Z with (Z.ones 8).
    rewrite Z.land_ones, Z.shiftr_div_pow2 by lia. reflexivity.
  - apply Z.land_nonneg. right. lia.
Qed.

Lemma be32_value (v : Z) :
  (Z.of_N (byteOf v 3) * 16777216 + Z.of_N (byteOf v 2) * 65536
   + Z.of_N (byteOf v 1) * 256 + Z.of_N (byteOf v 0)
   = v mod 4294967296)%Z.
Proof.
  rewrite !byteOf_value.
  change (2 ^ (8 * Z.of_nat 3))%Z with 16777216%Z.
  change (2 ^ (8 * Z.of_nat 2))%Z with 65536%Z.
  change (2 ^ (8 * Z.of_nat 1))%Z with 256%Z.
  change (2 ^ (8 * Z.of_nat 0))%Z with 1%Z.
  rewrite Z.div_1_r.
  Z.div_mod_to_equations. lia.
Qed.

Lemma be16_value (v : Z) :
  (Z.of_N (byteOf v 1) * 256 + Z.of_N (byteOf v 0) = v mod 65536)%Z.
Proof.
  rewrite !byteOf_value.
  change (2 ^ (8 * Z.of_nat 1))%Z with 256%Z.
  change (2 ^ (8 * Z.of_nat 0))%Z with 1%Z.
  rewrite Z.div_1_r.
  Z.div_mod_to_equations. lia.
Qed.

Lemma byteOf_byte (b : N) : byteOf (Z.of_N b) 0 = (b mod 256)%N.
Proof.
  apply N2Z.inj. rewrite byteOf_value, N2Z.inj_mod.
  change (2 ^ (8 * Z.of_nat 0))%Z with 1%Z. now rewrite Z.div_1_r.
Qed.

Lemma getUint16_app (hdr tail : list N) (offset : nat) :
  offset + 2 <= length hdr ->
  getUint16 (hdr ++ tail) offset = getUint16 hdr offset.
Proof.
  intros H. unfold getUint16.
  rewrite skipn_app, firstn_app, length_skipn.
  replace (2 - (length hdr - offset)) with 0 by lia.
  now rewrite firstn_O, app_nil_r.
Qed.

Lemma store_length (view : DataView) (offset : nat) (bytes : list N)
  (view' : DataView) :
  store view offset bytes = Normal view' -> length view' = length view.
Proof.
  unfold store. destruct (offset + length bytes <=? length view) eqn:E;
    [|discriminate].
  apply Nat.leb_le in E. intros [= <-].
  rewrite !length_app, length_firstn, length_skipn. lia.
Qed.

Lemma store_cons (view : DataView) (offset : nat) (b : N) (bytes : list N) :
  offset + S (length bytes) <= length view ->
  (view' <- store view offset [b] ;; store view' (S offset) bytes)
  = store view offset (b :: bytes).
Proof.
  intros H. unfold store at 1. cbn [length].
  assert (E1 : (offset + 1 <=? length view) = true)
    by (apply Nat.leb_le; lia).
  rewrite E1. cbn [bind]. unfold store. cbn [length].
  set (v := firstn offset view ++ [b] ++ skipn (offset + 1) view).
  assert (Lv : length v = length view).
  { unfold v. rewrite !length_app, length_firstn, length_skipn. simpl. lia. }
  assert (E2 : (S offset + length bytes <=? length v) = true)
    by (apply Nat.leb_le; lia).
  assert (E3 : (offset + S (length bytes) <=? length view) = true)
    by (apply Nat.leb_le; lia).
  rewrite E2, E3. f_equal.
  assert (Lf : length (firstn offset view) = offset)
    by (rewrite length_firstn; lia).
  assert (F : firstn (S offset) v = firstn offset view ++ [b]).
  { unfold v. rewrite firstn_app, Lf.
    replace (S offset - offset) with 1 by lia.
    rewrite firstn_all2 by lia. reflexivity. }
  assert (S' : skipn (S offset + length bytes) v
               = skipn (offset + S (length bytes)) view).
  { unfold v. rewrite skipn_app, Lf.
    rewrite skipn_all2 by (rewrite Lf; lia).
    replace (S offset + length bytes - offset) with (S (length bytes)) by lia.
    cbn [app skipn]. rewrite skipn_skipn. f_equal. lia. }
  rewrite F, S', <- app_assoc. reflexivity.
Qed.

Lemma loopBytes_S (bytes : list N) (i n : nat) :
  loopBytes bytes i (S n)
    = byteOf (if i <? length bytes then Z.of_N (nth i bytes 0%N) else 0%Z) 0
      :: loopBytes bytes (S i) n.
Proof. reflexivity. Qed.

Lemma writeLoop_store (n : nat) (view : DataView) (offset : nat)
  (bytes : list N) (i : nat) :
  offset + i + n <= length view ->
  writeLoop view offset bytes i n
    = store view (offset + i) (loopBytes bytes i n).
Proof.
  revert view i. induction n as [|n IH]; intros view i H.
  - unfold loopBytes, store. simpl.
    assert (E : (offset + i + 0 <=? length view) = true)
      by (apply Nat.leb_le; lia).
    rewrite E, Nat.add_0_r, firstn_skipn. reflexivity.
  - cbn [writeLoop]. unfold setUint8. rewrite loopBytes_S.
    rewrite <- (store_cons view (offset + i) _ (loopBytes bytes (S i) n))
      by (unfold loopBytes; rewrite length_map, length_seq; lia).
    destruct (store view (offset + i) _) as [v|m] eqn:E; cbn [bind];
      [|reflexivity].
    rewrite IH by (rewrite (store_length _ _ _ _ E); lia).
    f_equal. lia.
Qed.

Lemma loopBytes_padded (bytes : list N) (n : nat) :
  loopBytes bytes 0 n = padded bytes n.
Proof.
  unfold loopBytes, padded.
  set (f := fun j : nat =>
              byteOf (if j <? length bytes
                      then Z.of_N (nth j bytes 0%N) else 0%Z) 0).
  set (g := fun b : N => (b mod 256)%N).
  apply (nth_ext _ _ 0%N 0%N).
  - rewrite length_map, length_seq, length_app, length_map, length_firstn,
      repeat_length. lia.
  - intros j Hj. rewrite length_map, length_seq in Hj.
    rewrite (nth_indep _ 0%N (f 0)) by (rewrite length_map, length_seq; lia).
    rewrite map_nth, seq_nth by lia. cbn [Nat.add]. unfold f.
    destruct (Nat.ltb_spec j (length bytes)) as [L|L].
    + rewrite byteOf_byte, app_nth1
        by (rewrite length_map, length_firstn; lia).
      rewrite (nth_indep (map g (firstn n bytes)) 0%N (g 0%N))
        by (rewrite length_map, length_firstn; lia).
      rewrite map_nth, nth_firstn.
      destruct (Nat.ltb_spec j n); [reflexivity | lia].
    + rewrite app_nth2 by (rewrite length_map, length_firstn; lia).
      rewrite nth_repeat. reflexivity.
Qed.

(** X18. [writeString] fills a field of [len] bytes at [offset]: the
    string's UTF-8 bytes, cut off after [len] bytes when there are more and
    followed by zeros when there are fewer; the bytes before and after the
    field stay as they were. *)
Theorem writeString_fills_field (view : DataView) (offset : nat)
  (s : jsstring) (len : nat) :
  offset + len <= length view ->
  writeString view offset s len
    = Normal (firstn offset view ++ padded (stringToUint8Array s) len
              ++ skipn (offset + len) view).
Proof.
  intros H. unfold writeString.
  rewrite writeLoop_store by lia.
  rewrite Nat.add_0_r, loopBytes_padded. unfold store.
  assert (L : length (padded (stringToUint8Array s) len) = len).
  { unfold padded. rewrite length_app, length_map, length_firstn, repeat_length.
    lia. }
  rewrite L.
  assert (E : (offset + len <=? length view) = true) by (now apply Nat.leb_le).
  now rewrite E.
Qed.

Lemma writeString_fills_field_witness :
  writeString (ArrayBuffer 8) 2 (lit "BOOK") 4
    = Normal (firstn 2 (ArrayBuffer 8)
              ++ padded (stringToUint8Array (lit "BOOK")) 4
              ++ skipn (2 + 4) (ArrayBuffer 8)).
Proof.
  apply (writeString_fills_field (ArrayBuffer 8) 2 (lit "BOOK") 4).
  simpl. lia.
Defined.

Lemma writeLoop_out_of_range (n : nat) (view : DataView) (offset : nat)
  (bytes : list N) (i : nat) :
  length view < offset + i + S n ->
  exists message, writeLoop view offset bytes i (S n) = Throw message.
Proof.
  revert view i. induction n as [|n IH]; intros view i H.
  - cbn [writeLoop]. unfold setUint8, store. cbn [length].
    assert (E : (offset + i + 1 <=? length view) = false)
      by (apply Nat.leb_gt; lia).
    rewrite E. eexists. reflexivity.
  - cbn [writeLoop]. unfold setUint8.
    destruct (store view (offset + i) _) as [v|m] eqn:E; cbn [bind].
    + apply IH. rewrite (store_length _ _ _ _ E). lia.
    + eexists. reflexivity.
Qed.

(** X19. [writeString] never writes past the end: when the field does not fit
    in the buffer ([len] positive, [offset + len] beyond the length) the
    write throws and no buffer is returned. *)
Theorem writeString_out_of_range_throws (view : DataView) (offset : nat)
  (s : jsstring) (len : nat) :
  0 < len -> length view < offset + len ->
  exists message, writeString view offset s len = Throw message.
Proof.
  intros Hl H. unfold writeString. destruct len as [|n]; [lia|].
  apply writeLoop_out_of_range. lia.
Qed.

Lemma writeString_out_of_range_throws_witness :
  exists message,
    writeString (ArrayBuffer 8) 6 (lit "BOOK") 4 = Throw message.
Proof.
  apply (writeString_out_of_range_throws (ArrayBuffer 8) 6 (lit "BOOK") 4);
    simpl; lia.
Defined.

Lemma writeHeaders_with (title : jsstring) (now : Z) (contentLen : nat)
  (view : DataView) :
  writeHeaders title now contentLen view
    = headersWith (stringToUint8Array (substring0 title 31))
        (be32 now) (be32 (Z.of_nat contentLen)) view.
Proof. reflexivity. Qed.

Lemma headers_fields_of_bytes
  (n0 n1 n2 n3 n4 n5 n6 n7 n8 n9 n10 n11 n12 n13 n14 n15 n16 n17 n18 n19 n20 n21 n22 n23 n24 n25 n26 n27 n28 n29 n30 n31 : N)
  (t3 t2 t1 t0 c3 c2 c1 c0 : N) :
  exists hdr,
    bind (bind (store (ArrayBuffer 342) 0
                  [n0; n1; n2; n3; n4; n5; n6; n7; n8; n9; n10; n11; n12; n13; n14; n15; n16; n17; n18; n19; n20; n21; n22; n23; n24; n25; n26; n27; n28; n29; n30; n31])
            (pdbHeaderRest [t3; t2; t1; t0]))
      (fun view => bind (writeRecordList view) (record0With [c3; c2; c1; c0]))
      = Normal hdr /\
    length hdr = 342 /\
    firstn 32 hdr
      = [n0; n1; n2; n3; n4; n5; n6; n7; n8; n9; n10; n11; n12; n13; n14; n15; n16; n17; n18; n19; n20; n21; n22; n23; n24; n25; n26; n27; n28; n29; n30; n31] /\
    (getUint16 hdr 32 = Some 0%Z /\ getUint16 hdr 34 = Some 0%Z /\
     getUint32 hdr 36 = Some (u32 t3 t2 t1 t0) /\
     getUint32 hdr 40 = Some (u32 t3 t2 t1 t0) /\
     getUint32 hdr 44 = Some 0%Z /\ getUint32 hdr 48 = Some 0%Z /\
     getUint32 hdr 52 = Some 0%Z /\ getUint32 hdr 56 = Some 0%Z /\
     firstn 8 (skipn 60 hdr) = lit "BOOKMOBI" /\
     getUint32 hdr 68 = Some 1%Z /\ getUint32 hdr 72 = Some 0%Z /\
     getUint16 hdr 76 = Some 2%Z /\
     getUint32 hdr 82 = Some 0%Z /\ getUint32 hdr 90 = Some 2%Z) /\
    (getUint16 hdr 94 = Some 1%Z /\ getUint16 hdr 96 = Some 0%Z /\
     getUint32 hdr 98 = Some (u32 c3 c2 c1 c0) /\
     getUint16 hdr 102 = Some 1%Z /\ getUint16 hdr 104 = Some 4096%Z /\
     getUint32 hdr 106 = Some 0%Z /\
     firstn 4 (skipn 110 hdr) = lit "MOBI" /\
     getUint32 hdr 114 = Some 232%Z /\ getUint32 hdr 118 = Some 2%Z /\
     getUint32 hdr 122 = Some 65001%Z /\ getUint32 hdr 126 = Some 123456789%Z /\
     getUint32 hdr 130 = Some 6%Z /\
     firstn 208 (skipn 134 hdr) = repeat 0%N 208).
Proof.
  eexists. split; [vm_compute; reflexivity|].
  repeat split; vm_compute; reflexivity.
Qed.

Lemma writeHeaders_fields (title : jsstring) (now : Z) (contentLen : nat) :
  exists hdr,
    writeHeaders title now contentLen (ArrayBuffer 342) = Normal hdr /\
    length hdr = 342 /\
    firstn 32 hdr = padded (stringToUint8Array (substring0 title 31)) 32 /\
    (getUint16 hdr 32 = Some 0%Z /\ getUint16 hdr 34 = Some 0%Z /\
     getUint32 hdr 36 = Some (now mod 4294967296)%Z /\
     getUint32 hdr 40 = Some (now mod 4294967296)%Z /\
     getUint32 hdr 44 = Some 0%Z /\ getUint32 hdr 48 = Some 0%Z /\
     getUint32 hdr 52 = Some 0%Z /\ getUint32 hdr 56 = Some 0%Z /\
     firstn 8 (skipn 60 hdr) = lit "BOOKMOBI" /\
     getUint32 hdr 68 = Some 1%Z /\ getUint32 hdr 72 = Some 0%Z /\
     getUint16 hdr 76 = Some 2%Z /\
     getUint32 hdr 82 = Some 0%Z /\ getUint32 hdr 90 = Some 2%Z) /\
    (getUint16 hdr 94 = Some 1%Z /\ getUint16 hdr 96 = Some 0%Z /\
     getUint32 hdr 98 = Some (Z.of_nat contentLen mod 4294967296)%Z /\
     getUint16 hdr 102 = Some 1%Z /\ getUint16 hdr 104 = Some 4096%Z /\
     getUint32 hdr 106 = Some 0%Z /\
     firstn 4 (skipn 110 hdr) = lit "MOBI" /\
     getUint32 hdr 114 = Some 232%Z /\ getUint32 hdr 118 = Some 2%Z /\
     getUint32 hdr 122 = Some 65001%Z /\ getUint32 hdr 126 = Some 123456789%Z /\
     getUint32 hdr 130 = Some 6%Z /\
     firstn 208 (skipn 134 hdr) = repeat 0%N 208).
Proof.
  rewrite writeHeaders_with. unfold headersWith, pdbHeaderWith, NAME_LEN.
  rewrite writeLoop_store by (unfold ArrayBuffer; rewrite repeat_length; lia).
  rewrite <- (loopBytes_padded _ 32).
  rewrite <- (be32_value now), <- (be32_value (Z.of_nat contentLen)).
  unfold loopBytes, be32. cbn [seq map Nat.add].
  apply headers_fields_of_bytes.
Qed.

(** The buffer of a call and the header block it starts with. *)
Lemma createMobiBlob_fields (dateNow : Z) (htmlContent : jsstring)
  (titleArg : option jsstring) (title : jsstring) (contentBytes : list N) :
  title = match titleArg with Some t => t | None => defaultTitle end ->
  contentBytes = stringToUint8Array (fullContent title htmlContent) ->
  exists hdr,
    createMobiBlob dateNow htmlContent titleArg
      = Normal {| blobParts := hdr ++ contentBytes;
                  blobType := lit "application/x-mobipocket-ebook" |} /\
    length hdr = 342 /\
    firstn 32 hdr = padded (stringToUint8Array (substring0 title 31)) 32 /\
    (getUint16 hdr 32 = Some 0%Z /\ getUint16 hdr 34 = Some 0%Z /\
     getUint32 hdr 36 = Some (palmTime dateNow mod 4294967296)%Z /\
     getUint32 hdr 40 = Some (palmTime dateNow mod 4294967296)%Z /\
     getUint32 hdr 44 = Some 0%Z /\ getUint32 hdr 48 = Some 0%Z /\
     getUint32 hdr 52 = Some 0%Z /\ getUint32 hdr 56 = Some 0%Z /\
     firstn 8 (skipn 60 hdr) = lit "BOOKMOBI" /\
     getUint32 hdr 68 = Some 1%Z /\ getUint32 hdr 72 = Some 0%Z /\
     getUint16 hdr 76 = Some 2%Z /\
     getUint32 hdr 82 = Some 0%Z /\ getUint32 hdr 90 = Some 2%Z) /\
    (getUint16 hdr 94 = Some 1%Z /\ getUint16 hdr 96 = Some 0%Z /\
     getUint32 hdr 98
       = Some (Z.of_nat (length contentBytes) mod 4294967296)%Z /\
     getUint16 hdr 102 = Some 1%Z /\ getUint16 hdr 104 = Some 4096%Z /\
     getUint32 hdr 106 = Some 0%Z /\
     firstn 4 (skipn 110 hdr) = lit "MOBI" /\
     getUint32 hdr 114 = Some 232%Z /\ getUint32 hdr 118 = Some 2%Z /\
     getUint32 hdr 122 = Some 65001%Z /\ getUint32 hdr 126 = Some 123456789%Z /\
     getUint32 hdr 130 = Some 6%Z /\
     firstn 208 (skipn 134 hdr) = repeat 0%N 208).
Proof.
  intros Ht Hc.
  destruct (writeHeaders_fields title (palmTime dateNow) (length contentBytes))
    as (hdr & Hw & Hl & Hrest).
  destruct (createMobiBlob_layout dateNow htmlContent titleArg title
              contentBytes Ht Hc) as (hdr' & Hw' & _ & Hblob).
  rewrite Hw in Hw'. injection Hw' as <-.
  exists hdr. split; [exact Hblob|]. split; [exact Hl | exact Hrest].
Qed.

(** X20. The PDB header of every buffer reads back as follows (integers
    big-endian): attributes and version 0; creation and modification date
    both the Palm time of the call, modulo 2^32; backup date, modification
    number, app-info and sort-info 0; type and creator [BOOK] and [MOBI]; id
    seed 1; next record list 0; two records; and the attribute words of the
    two record-info entries are 0 and 2. *)
Theorem pdb_header_reads_back (dateNow : Z) (htmlContent : jsstring)
  (titleArg : option jsstring) :
  exists view,
    createMobiBlob dateNow htmlContent titleArg
      = Normal {| blobParts := view;
                  blobType := lit "application/x-mobipocket-ebook" |} /\
    getUint16 view 32 = Some 0%Z /\ getUint16 view 34 = Some 0%Z /\
    getUint32 view 36 = Some (palmTime dateNow mod 4294967296)%Z /\
    getUint32 view 40 = Some (palmTime dateNow mod 4294967296)%Z /\
    getUint32 view 44 = Some 0%Z /\ getUint32 view 48 = Some 0%Z /\
    getUint32 view 52 = Some 0%Z /\ getUint32 view 56 = Some 0%Z /\
    firstn 8 (skipn 60 view) = lit "BOOKMOBI" /\
    getUint32 view 68 = Some 1%Z /\ getUint32 view 72 = Some 0%Z /\
    getUint16 view 76 = Some 2%Z /\
    getUint32 view 82 = Some 0%Z /\ getUint32 view 90 = Some 2%Z.
Proof.
  destruct (createMobiBlob_fields dateNow htmlContent titleArg _ _
              eq_refl eq_refl) as (hdr & Hb & Hl & _ & Hpdb & _).
  eexists. split; [exact Hb|].
  rewrite !getUint32_app, !getUint16_app, !slice_app by lia. exact Hpdb.
Qed.

(** X21. Record 0 of every buffer reads back as follows: in the PalmDOC
    header, compression 1 (none), text length the number of text bytes
    (modulo 2^32), record count 1, record size 4096, position 0; in the MOBI
    header, the identifier [MOBI], header length 232, type 2, encoding 65001
    (UTF-8), the fixed id, version 6, and zeros in all its remaining 208
    bytes (so no EXTH index and no full name). *)
Theorem record0_reads_back (dateNow : Z) (htmlContent : jsstring)
  (titleArg : option jsstring) :
  let title := match titleArg with Some t => t | None => defaultTitle end in
  let contentBytes := stringToUint8Array (fullContent title htmlContent) in
  exists view,
    createMobiBlob dateNow htmlContent titleArg
      = Normal {| blobParts := view;
                  blobType := lit "application/x-mobipocket-ebook" |} /\
    getUint16 view 94 = Some 1%Z /\ getUint16 view 96 = Some 0%Z /\
    getUint32 view 98
      = Some (Z.of_nat (length contentBytes) mod 4294967296)%Z /\
    getUint16 view 102 = Some 1%Z /\ getUint16 view 104 = Some 4096%Z /\
    getUint32 view 106 = Some 0%Z /\
    firstn 4 (skipn 110 view) = lit "MOBI" /\
    getUint32 view 114 = Some 232%Z /\ getUint32 view 118 = Some 2%Z /\
    getUint32 view 122 = Some 65001%Z /\ getUint32 view 126 = Some 123456789%Z /\
    getUint32 view 130 = Some 6%Z /\
    firstn 208 (skipn 134 view) = repeat 0%N 208.
Proof.
  intros title contentBytes.
  destruct (createMobiBlob_fields dateNow htmlContent titleArg title
              contentBytes eq_refl eq_refl) as (hdr & Hb & Hl & _ & _ & Hrec).
  eexists. split; [exact Hb|].
  rewrite !getUint32_app, !getUint16_app, !slice_app by lia. exact Hrec.
Qed.

(** X22. The date fields hold the Unix seconds plus 2082844800 exactly as
    long as that fits in 32 bits, that is for a clock before
    2040-02-06T06:28:16Z (2212122496000 ms); from that moment on the fields
    wrap around and hold the value less 2^32. *)
Theorem dates_exact_until_2040 (dateNow : Z) (htmlContent : jsstring)
  (titleArg : option jsstring) :
  exists view,
    createMobiBlob dateNow htmlContent titleArg
      = Normal {| blobParts := view;
                  blobType := lit "application/x-mobipocket-ebook" |} /\
    getUint32 view 40 = getUint32 view 36 /\
    ((0 <= dateNow < 2212122496000)%Z ->
     getUint32 view 36 = Some (dateNow / 1000 + 2082844800)%Z) /\
    ((2212122496000 <= dateNow < 6507089792000)%Z ->
     getUint32 view 36
       = Some (dateNow / 1000 + 2082844800 - 4294967296)%Z).
Proof.
  destruct (createMobiBlob_fields dateNow htmlContent titleArg _ _
              eq_refl eq_refl) as (hdr & Hb & Hl & _ & Hpdb & _).
  destruct Hpdb as (_ & _ & H36 & H40 & _).
  eexists. split; [exact Hb|].
  rewrite !getUint32_app by lia. rewrite H36, H40.
  split; [reflexivity|]. unfold palmTime. split; intros H; f_equal.
  - apply Z.mod_small. Z.div_mod_to_equations. lia.
  - symmetry. apply (Z.mod_unique _ _ 1); [left|]; Z.div_mod_to_equations; lia.
Qed.

Lemma dates_exact_until_2040_witness :
  exists view,
    createMobiBlob 1700000000000 (lit "<p>x</p>") None
      = Normal {| blobParts := view;
                  blobType := lit "application/x-mobipocket-ebook" |} /\
    getUint32 view 36 = Some 3782844800%Z.
Proof.
  destruct (dates_exact_until_2040 1700000000000 (lit "<p>x</p>") None)
    as (view & Hb & _ & H & _).
  exists view. split; [exact Hb|]. apply H. lia.
Defined.

Lemma ascii_bytes (s : jsstring) :
  forallb (fun c => (c <? 128)%N) s = true ->
  stringToUint8Array s = s /\ map (fun b => (b mod 256)%N) s = s.
Proof.
  intros H. split.
  - rewrite <- (app_nil_r s) at 1.
    rewrite (stringToUint8Array_ascii_prefix _ _ H). apply app_nil_r.
  - induction s as [|c s IH]; simpl in *; [reflexivity|].
    apply andb_true_iff in H as [Hc Hs]. apply N.ltb_lt in Hc.
    rewrite (IH Hs), N.mod_small by lia. reflexivity.
Qed.

Lemma forallb_firstn {A : Type} (f : A -> bool) (n : nat) (l : list A) :
  forallb f l = true -> forallb f (firstn n l) = true.
Proof.
  revert n. induction l as [|a l IH]; intros [|n]; simpl; try reflexivity.
  intros H. apply andb_true_iff in H as [Ha Hl]. now rewrite Ha, IH.
Qed.

(** X23. For a title of ASCII characters the 32-byte name field holds the
    first 31 characters of the title followed by zeros, so it always ends
    with a zero byte. *)
Theorem ascii_name_is_zero_terminated (dateNow : Z) (htmlContent : jsstring)
  (titleArg : option jsstring) :
  let title := match titleArg with Some t => t | None => defaultTitle end in
  forallb (fun c => (c <? 128)%N) title = true ->
  exists view,
    createMobiBlob dateNow htmlContent titleArg
      = Normal {| blobParts := view;
                  blobType := lit "application/x-mobipocket-ebook" |} /\
    firstn 32 view
      = firstn 31 title ++ repeat 0%N (32 - length (firstn 31 title)) /\
    nth 31 view 1%N = 0%N.
Proof.
  intros title Ha.
  destruct (createMobiBlob_fields dateNow htmlContent titleArg title _
              eq_refl eq_refl) as (hdr & Hb & Hl & Hname & _).
  eexists. split; [exact Hb|].
  assert (Hf : firstn 32 (hdr ++ stringToUint8Array (fullContent title htmlContent))
               = firstn 31 title ++ repeat 0%N (32 - length (firstn 31 title))).
  { rewrite firstn_app, Hl. change (32 - 342) with 0.
    rewrite firstn_O, app_nil_r, Hname.
    unfold padded, substring0.
    destruct (ascii_bytes (firstn 31 title) (forallb_firstn _ 31 _ Ha))
      as [-> Hm].
    rewrite firstn_all2 by (rewrite length_firstn; lia).
    now rewrite Hm. }
  split; [exact Hf|].
  rewrite <- (firstn_skipn 32 (hdr ++ _)), Hf.
  assert (Hlen : length (firstn 31 title) <= 31) by (rewrite length_firstn; lia).
  rewrite <- app_assoc, app_nth2 by lia.
  rewrite app_nth1 by (rewrite repeat_length; lia).
  rewrite (nth_indep _ 1%N 0%N) by (rewrite repeat_length; lia).
  apply nth_repeat.
Qed.

Lemma ascii_name_is_zero_terminated_witness :
  exists view,
    createMobiBlob 0 (lit "<p>x</p>")
      (Some (lit "A title that is longer than thirty-one characters"))
      = Normal {| blobParts := view;
                  blobType := lit "application/x-mobipocket-ebook" |} /\
    firstn 32 view
      = firstn 31 (lit "A title that is longer than thirty-one characters")
        ++ repeat 0%N
             (32 - length (firstn 31
                (lit "A title that is longer than thirty-one characters"))) /\
    nth 31 view 1%N = 0%N.
Proof.
  apply (ascii_name_is_zero_terminated 0 (lit "<p>x</p>")
           (Some (lit "A title that is longer than thirty-one characters"))).
  reflexivity.
Defined.

End MobiMore.

(* ===================================================================== *)
(** * The EPUB packager and the readers: reading back *)
(* ===================================================================== *)

Section EpubMore.

Import Epub.

Lemma between_in (doc pre opening body closing post : jsstring) :
  doc = pre ++ opening ++ body ++ closing ++ post ->
  clear pre opening = true -> clear body closing = true ->
  between opening closing doc = Some body.
Proof. intros ->. apply between_found. Qed.

Lemma no_lt_uuid (randomUUID : jsstring) :
  forallb isUuidUnit randomUUID = true ->
  clear (urn randomUUID) (lit "<") = true.
Proof.
  intros H. apply clear_app; [vm_compute; reflexivity|].
  apply (clear_head _ _ 60%N); [reflexivity|].
  now apply isUuidUnit_not.
Qed.

Lemma clear_lt (s marker : jsstring) :
  hd_error marker = Some 60%N -> Forall (fun c => c <> 60%N) s ->
  clear s marker = true.
Proof. apply clear_head. Qed.

Lemma clear_urn (randomUUID marker : jsstring) :
  hd_error marker = Some 60%N ->
  forallb isUuidUnit randomUUID = true ->
  clear (urn randomUUID) marker = true.
Proof.
  intros Hm H. unfold urn. apply clear_app.
  - destruct marker as [|c m]; [discriminate|]. injection Hm as ->.
    vm_compute. reflexivity.
  - apply (clear_head _ _ 60%N); [exact Hm|]. now apply isUuidUnit_not.
Qed.

Lemma opf_title (title uuid : jsstring) :
  Forall (fun c => c <> 60%N) title ->
  between (lit "<dc:title>") (lit "</dc:title>") (contentOpf title uuid)
    = Some title.
Proof.
  intros Ht. unfold contentOpf.
  match goal with
  | |- between ?o ?cl (?A ++ title ++ ?B ++ ?rest) = _ =>
      let n := eval vm_compute in (length A - length o) in
      let k := eval vm_compute in (length cl) in
      apply (between_in _ (firstn n A) o title cl (skipn k B ++ rest));
      [ replace A with (firstn n A ++ o) at 1 by (vm_compute; reflexivity);
        replace B with (cl ++ skipn k B) at 1 by (vm_compute; reflexivity);
        rewrite <- !app_assoc; reflexivity
      | vm_compute; reflexivity
      | now apply (clear_head _ _ 60%N) ]
  end.
Qed.

Lemma xhtml_title (title htmlContent : jsstring) :
  Forall (fun c => c <> 60%N) title ->
  between (lit "<title>") (lit "</title>") (xhtmlContent title htmlContent)
    = Some title.
Proof.
  intros Ht. unfold xhtmlContent.
  match goal with
  | |- between ?o ?cl (?A ++ title ++ ?B ++ ?rest) = _ =>
      let n := eval vm_compute in (length A - length o) in
      let k := eval vm_compute in (length cl) in
      apply (between_in _ (firstn n A) o title cl (skipn k B ++ rest));
      [ replace A with (firstn n A ++ o) at 1 by (vm_compute; reflexivity);
        replace B with (cl ++ skipn k B) at 1 by (vm_compute; reflexivity);
        rewrite <- !app_assoc; reflexivity
      | vm_compute; reflexivity
      | now apply (clear_head _ _ 60%N) ]
  end.
Qed.

Lemma xhtml_heading (title htmlContent : jsstring) :
  Forall (fun c => c <> 60%N) title ->
  between (lit "<h1>") (lit "</h1>") (xhtmlContent title htmlContent)
    = Some title.
Proof.
  intros Ht. unfold xhtmlContent.
  match goal with
  | |- between ?o ?cl (?A ++ title ++ ?B ++ title ++ ?C ++ ?rest) = _ =>
      let n := eval vm_compute in (length B - length o) in
      let k := eval vm_compute in (length cl) in
      apply (between_in _ (A ++ title ++ firstn n B) o title cl
               (skipn k C ++ rest));
      [ replace B with (firstn n B ++ o) at 1 by (vm_compute; reflexivity);
        replace C with (cl ++ skipn k C) at 1 by (vm_compute; reflexivity);
        rewrite <- !app_assoc; reflexivity
      | apply clear_app; [vm_compute; reflexivity|];
        apply clear_app; [|vm_compute; reflexivity];
        now apply (clear_head _ _ 60%N)
      | now apply (clear_head _ _ 60%N) ]
  end.
Qed.

Lemma ncx_title (title randomUUID : jsstring) :
  Forall (fun c => c <> 60%N) title ->
  forallb isUuidUnit randomUUID = true ->
  between (lit "<text>") (lit "</text>") (tocNcx title (urn randomUUID))
    = Some title.
Proof.
  intros Ht Hu. unfold tocNcx.
  match goal with
  | |- between ?o ?cl (?A ++ ?u ++ ?B ++ title ++ ?C) = _ =>
      let n := eval vm_compute in (length B - length o) in
      let k := eval vm_compute in (length cl) in
      apply (between_in _ (A ++ u ++ firstn n B) o title cl (skipn k C));
      [ replace B with (firstn n B ++ o) at 1 by (vm_compute; reflexivity);
        replace C with (cl ++ skipn k C) at 1 by (vm_compute; reflexivity);
        rewrite <- !app_assoc; reflexivity
      | apply clear_app; [vm_compute; reflexivity|];
        apply clear_app; [|vm_compute; reflexivity];
        now apply clear_urn
      | now apply (clear_head _ _ 60%N) ]
  end.
Qed.

Lemma createEpubBlob_entries (randomUUID htmlContent : jsstring)
  (titleArg : option jsstring) (title : jsstring) :
  title = match titleArg with Some t => t | None => defaultTitle end ->
  createEpubBlob true randomUUID htmlContent titleArg
    = Normal
        {| blobParts :=
             [ {| name := lit "mimetype"; data := lit "application/epub+zip";
                  dir := false; compression := Some STORE |};
               {| name := lit "META-INF/"; data := []; dir := true;
                  compression := None |};
               {| name := lit "META-INF/container.xml"; data := containerXml;
                  dir := false; compression := None |};
               {| name := lit "OEBPS/"; data := []; dir := true;
                  compression := None |};
               {| name := lit "OEBPS/style.css"; data := css; dir := false;
                  compression := None |};
               {| name := lit "OEBPS/content.xhtml";
                  data := xhtmlContent title htmlContent; dir := false;
                  compression := None |};
               {| name := lit "OEBPS/content.opf";
                  data := contentOpf title (urn randomUUID); dir := false;
                  compression := None |};
               {| name := lit "OEBPS/toc.ncx";
                  data := tocNcx title (urn randomUUID); dir := false;
                  compression := None |} ];
           blobType := lit "application/epub+zip" |}.
Proof.
  intros ->. unfold createEpubBlob. cbn [negb].
  unfold file, folder. cbn [put existsb app fst snd].
  reflexivity.
Qed.

(** X24. The title is written where a reader looks for it: for a title
    without [<] (the default "Converted E-Book" when none is given) and a
    UUID as [crypto.randomUUID] makes them, the [dc:title] of
    [content.opf], the [docTitle] text of [toc.ncx], and the [title] and
    [h1] of [content.xhtml] all read back as the title. *)
Theorem epub_title_reads_back (randomUUID htmlContent : jsstring)
  (titleArg : option jsstring) :
  let title := match titleArg with Some t => t | None => defaultTitle end in
  Forall (fun c => c <> 60%N) title ->
  forallb isUuidUnit randomUUID = true ->
  exists zip,
    createEpubBlob true randomUUID htmlContent titleArg
      = Normal {| blobParts := zip; blobType := lit "application/epub+zip" |} /\
    between (lit "<dc:title>") (lit "</dc:title>")
      (fileAt zip "OEBPS/content.opf") = Some title /\
    between (lit "<text>") (lit "</text>") (fileAt zip "OEBPS/toc.ncx")
      = Some title /\
    between (lit "<title>") (lit "</title>") (fileAt zip "OEBPS/content.xhtml")
      = Some title /\
    between (lit "<h1>") (lit "</h1>") (fileAt zip "OEBPS/content.xhtml")
      = Some title.
Proof.
  intros title Ht Hu.
  eexists. split; [apply (createEpubBlob_entries _ _ _ title eq_refl)|].
  change (fileAt _ "OEBPS/content.opf") with (contentOpf title (urn randomUUID)).
  change (fileAt _ "OEBPS/toc.ncx") with (tocNcx title (urn randomUUID)).
  change (fileAt _ "OEBPS/content.xhtml") with (xhtmlContent title htmlContent).
  repeat split.
  - now apply opf_title.
  - now apply ncx_title.
  - now apply xhtml_title.
  - now apply xhtml_heading.
Qed.

Lemma epub_title_reads_back_witness :
  exists zip,
    createEpubBlob true (lit "123e4567-e89b-42d3-a456-426614174000")
      (lit "<p>x</p>") None
      = Normal {| blobParts := zip; blobType := lit "application/epub+zip" |} /\
    between (lit "<dc:title>") (lit "</dc:title>")
      (fileAt zip "OEBPS/content.opf") = Some (lit "Converted E-Book").
Proof.
  destruct (epub_title_reads_back
              (lit "123e4567-e89b-42d3-a456-426614174000") (lit "<p>x</p>")
              None) as (zip & Hb & Ho & _).
  - repeat constructor; discriminate.
  - reflexivity.
  - exists zip. split; [exact Hb | exact Ho].
Defined.

Lemma opf_manifest (title randomUUID : jsstring) :
  Forall (fun c => c <> 60%N) title ->
  forallb isUuidUnit randomUUID = true ->
  exists section,
    between (lit "<manifest>") (lit "</manifest>")
      (contentOpf title (urn randomUUID)) = Some section /\
    attributeValues (lit "href") section
      = [lit "toc.ncx"; lit "style.css"; lit "content.xhtml"].
Proof.
  intros Ht Hu. unfold contentOpf.
  match goal with
  | |- exists section,
         between ?o ?cl (?A ++ title ++ ?B ++ ?u ++ ?C) = _ /\ _ =>
      let pre := eval vm_compute in
                   (match before o C with Some p => p | None => [] end) in
      let sec := eval vm_compute in
                   (match between o cl C with Some p => p | None => [] end) in
      let k := eval vm_compute in
                 (length pre + length o + length sec + length cl) in
      exists sec; split;
      [ apply (between_in _ (A ++ title ++ B ++ u ++ pre) o sec cl (skipn k C));
        [ replace C with (pre ++ o ++ sec ++ cl ++ skipn k C) at 1
            by (vm_compute; reflexivity);
          rewrite <- !app_assoc; reflexivity
        | apply clear_app; [vm_compute; reflexivity|];
          apply clear_app; [now apply (clear_head _ _ 60%N)|];
          apply clear_app; [vm_compute; reflexivity|];
          apply clear_app; [now apply clear_urn | vm_compute; reflexivity]
        | vm_compute; reflexivity ]
      | vm_compute; reflexivity ]
  end.
Qed.

Lemma container_rootfile :
  attributeValues (lit "full-path") containerXml = [lit "OEBPS/content.opf"].
Proof. vm_compute. reflexivity. Qed.

(** X25. The package holds what it points at: for a title without [<] and
    a UUID as [crypto.randomUUID] makes them, the [full-path] of
    [container.xml] is the path of the OPF entry, and the [href]s of the
    manifest of [content.opf] are [toc.ncx], [style.css] and
    [content.xhtml], each of them a file of the archive under [OEBPS/]. *)
Theorem epub_references_resolve (randomUUID htmlContent : jsstring)
  (titleArg : option jsstring) :
  let title := match titleArg with Some t => t | None => defaultTitle end in
  Forall (fun c => c <> 60%N) title ->
  forallb isUuidUnit randomUUID = true ->
  exists zip manifest,
    createEpubBlob true randomUUID htmlContent titleArg
      = Normal {| blobParts := zip; blobType := lit "application/epub+zip" |} /\
    Forall (fun path => exists e, entry zip path = Some e /\ dir e = false)
      (attributeValues (lit "full-path") (fileAt zip "META-INF/container.xml"))
    /\
    attributeValues (lit "full-path") (fileAt zip "META-INF/container.xml")
      = [lit "OEBPS/content.opf"] /\
    between (lit "<manifest>") (lit "</manifest>")
      (fileAt zip "OEBPS/content.opf") = Some manifest /\
    attributeValues (lit "href") manifest
      = [lit "toc.ncx"; lit "style.css"; lit "content.xhtml"] /\
    Forall (fun href =>
              exists e, entry zip (lit "OEBPS/" ++ href) = Some e /\
                        dir e = false)
      (attributeValues (lit "href") manifest).
Proof.
  intros title Ht Hu.
  destruct (opf_manifest title randomUUID Ht Hu) as (manifest & Hm & Hh).
  eexists _, manifest.
  split; [apply (createEpubBlob_entries _ _ _ title eq_refl)|].
  change (fileAt _ "OEBPS/content.opf") with (contentOpf title (urn randomUUID)).
  change (fileAt _ "META-INF/container.xml") with containerXml.
  rewrite container_rootfile, Hh.
  split; [|split; [reflexivity|split; [exact Hm|split; [reflexivity|]]]].
  - constructor; [|constructor]. eexists. split; reflexivity.
  - repeat constructor; eexists; split; reflexivity.
Qed.

Lemma epub_references_resolve_witness :
  exists zip manifest,
    createEpubBlob true (lit "123e4567-e89b-42d3-a456-426614174000")
      (lit "<p>x</p>") (Some (lit "Book"))
      = Normal {| blobParts := zip; blobType := lit "application/epub+zip" |} /\
    between (lit "<manifest>") (lit "</manifest>")
      (fileAt zip "OEBPS/content.opf") = Some manifest /\
    attributeValues (lit "href") manifest
      = [lit "toc.ncx"; lit "style.css"; lit "content.xhtml"].
Proof.
  destruct (epub_references_resolve
              (lit "123e4567-e89b-42d3-a456-426614174000") (lit "<p>x</p>")
              (Some (lit "Book"))) as (zip & m & Hb & _ & _ & Hm & Hh & _).
  - repeat constructor; discriminate.
  - reflexivity.
  - exists zip, m. split; [exact Hb|]. split; [exact Hm | exact Hh].
Defined.

End EpubMore.

Section FileReaderFacts.

Import FileReaders.

Lemma splitComma_plain (s : jsstring) :
  Forall (fun c => c <> 44%N) s -> splitComma s = [s].
Proof.
  induction 1 as [|c s Hc _ IH]; simpl; [reflexivity|].
  destruct (N.eqb_spec c 44); [contradiction|]. now rewrite IH.
Qed.

Lemma splitComma_field (a b : jsstring) :
  Forall (fun c => c <> 44%N) a ->
  splitComma (a ++ 44%N :: b) = a :: splitComma b.
Proof.
  induction 1 as [|c a Hc _ IH]; simpl; [reflexivity|].
  destruct (N.eqb_spec c 44); [contradiction|]. now rewrite IH.
Qed.

(** X26. [fileToBase64] gives back the payload of a data URL: when the
    reader's result is a prefix without comma, a comma and a payload without
    comma, the promise resolves with the payload; when the result holds no
    comma at all it resolves with [undefined] rather than being rejected. *)
Theorem fileToBase64_payload :
  (forall prefix payload,
     Forall (fun c => c <> 44%N) prefix ->
     Forall (fun c => c <> 44%N) payload ->
     fileToBase64 (Loaded (ResultString (prefix ++ lit "," ++ payload)))
       = Resolved (Some payload)) /\
  (forall s,
     Forall (fun c => c <> 44%N) s ->
     fileToBase64 (Loaded (ResultString s)) = Resolved None).
Proof.
  split.
  - intros prefix payload Hp Hq. unfold fileToBase64.
    change (lit "," ++ payload) with (44%N :: payload).
    now rewrite (splitComma_field _ _ Hp), (splitComma_plain _ Hq).
  - intros s Hs. unfold fileToBase64. now rewrite (splitComma_plain _ Hs).
Qed.

Lemma fileToBase64_payload_witness :
  fileToBase64
    (Loaded (ResultString (lit "data:application/pdf;base64" ++ lit ","
                           ++ lit "JVBERi0xLjQ=")))
  = Resolved (Some (lit "JVBERi0xLjQ=")).
Proof.
  apply (proj1 fileToBase64_payload (lit "data:application/pdf;base64")
           (lit "JVBERi0xLjQ="));
    repeat constructor; discriminate.
Defined.

End FileReaderFacts.
